(** * kantek: denylist registry, ban registry and enforcement

    A shallow embedding of the moderation core of kantek:
    - [database/postgres.py]: the [AutobahnBlacklist] tables and the
      [BanList] table;
    - [utils/helpers.py]: [rose_csv_to_dict];
    - [plugins/autobahn/autobahn_mgr.py]: the [add] and [del_] commands;
    - [plugins/autobahn/banlist.py]: the [import_] command;
    - [plugins/autobahn/automatic/grenzschutz.py]: the [grenzschutz]
      event handler.

    SQL statements are embedded by their PostgreSQL meaning on a table
    kept as the list of its rows; coroutines are embedded as functions
    that pass the store explicitly and record every call made to an
    outside collaborator (platform client, SpamWatch client). *)

From Stdlib Require Import Ascii Sorted.
From stdpp Require Import base option list strings pretty gmap.
From Equations Require Import Equations.

Open Scope string_scope.
Open Scope Z_scope.
Open Scope list_scope.

(** ** Python values and exceptions *)

(** The values that reach the store as a blacklist item: channel ids are
    [int], everything else is [str]; [None] is what a failed
    [resolve_invite_link] leaves behind. *)
Inductive PyVal :=
  | PyInt (z : Z)
  | PyStr (s : string)
  | PyNone.

Global Instance PyVal_eq_dec : EqDecision PyVal.
Proof. solve_decision. Defined.

(** [str(v)] *)
Definition str (v : PyVal) : string :=
  match v with
  | PyInt z => pretty z
  | PyStr s => s
  | PyNone => "None"
  end.

(** The exceptions the embedded code raises or catches. *)
Inductive Exc :=
  | ValueError
  | IndexError
  | UnboundLocalError
  | AttributeError
  | ItemDoesNotExistError
  | UserIdInvalidError
  | DataError
  | CardinalityViolationError
  | SpamWatchError.

Global Instance Exc_eq_dec : EqDecision Exc.
Proof. solve_decision. Defined.

(** A call either returns a value or raises. *)
Inductive Result (A : Type) :=
  | Ok (a : A)
  | Raise (e : Exc).
Arguments Ok {A} a.
Arguments Raise {A} e.

(** ** database/postgres.py: the blacklist tables *)

Module AutobahnBlacklist.

(** A row of [blacklists.<name>]: columns [id], [item], [retired]. *)
Record Row := mkRow { id : Z; item : string; retired : bool }.

(** [database.types.BlacklistItem(index, value, retired)]. *)
Record BlacklistItem :=
  mkBlacklistItem { index : Z; value : PyVal; bl_retired : bool }.

(** Modelled from the spec: the schema of [blacklists.<name>] is not
    part of the sources.  The [id] column is filled by the store with a
    "monotonic integer (unique per category, assigned by the store)":
    a sequence, kept here as [next_id], whose value is taken and
    advanced by every INSERT and touched by nothing else. *)
Record Table := mkTable { rows : list Row; next_id : Z }.

Definition empty : Table := mkTable [] 1.

(** The six subclasses differ by [name] and [hex_type] only. *)
Inductive Category :=
  | AutobahnBioBlacklist
  | AutobahnStringBlacklist
  | AutobahnChannelBlacklist
  | AutobahnDomainBlacklist
  | AutobahnFileBlacklist
  | AutobahnMHashBlacklist.

Global Instance Category_eq_dec : EqDecision Category.
Proof. solve_decision. Defined.

Definition hex_type (self : Category) : string :=
  match self with
  | AutobahnBioBlacklist => "0x0"
  | AutobahnStringBlacklist => "0x1"
  | AutobahnChannelBlacklist => "0x3"
  | AutobahnDomainBlacklist => "0x4"
  | AutobahnFileBlacklist => "0x5"
  | AutobahnMHashBlacklist => "0x6"
  end.

Definition name (self : Category) : string :=
  match self with
  | AutobahnBioBlacklist => "bio"
  | AutobahnStringBlacklist => "string"
  | AutobahnChannelBlacklist => "channel"
  | AutobahnDomainBlacklist => "domain"
  | AutobahnFileBlacklist => "file"
  | AutobahnMHashBlacklist => "mhash"
  end.

(** The schema [blacklists]: one table per category. *)
Definition Schema := Category → Table.

Definition empty_schema : Schema := λ _, empty.

Definition set_table (self : Category) (t : Table) (db : Schema) : Schema :=
  λ c, if decide (c = self) then t else db c.

(** *** The SQL statements *)

(** [INSERT INTO t (item) VALUES ($1) RETURNING id] *)
Definition insert_returning_id (s : string) (t : Table) : Z * Table :=
  (next_id t, mkTable (rows t ++ [mkRow (next_id t) s false]) (next_id t + 1)).

Definition item_is (s : string) (r : Row) : bool := bool_decide (item r = s).
Definition id_is (i : Z) (r : Row) : bool := bool_decide (id r = i).

(** [fetchrow("SELECT * FROM t WHERE <p>")]: the first row the scan
    meets, or [None]. *)
Definition select_fetchrow (p : Row → bool) (t : Table) : option Row :=
  List.find p (rows t).

(** [fetch("SELECT * FROM t WHERE <p>")] *)
Definition select_fetch (p : Row → bool) (t : Table) : list Row :=
  List.filter p (rows t).

Definition set_retired (r : Row) : Row := mkRow (id r) (item r) true.

(** [fetchrow("UPDATE t SET retired=TRUE WHERE <p> RETURNING id")]:
    every row that satisfies [p] is updated, and the first of the
    returned ids is handed back. *)
Definition update_retired_returning_id (p : Row → bool) (t : Table)
  : option Z * Table :=
  (id <$> List.find p (rows t),
   mkTable (List.map (λ r, if p r then set_retired r else r) (rows t))
           (next_id t)).

(** *** The methods *)

Definition of_row (r : Row) : BlacklistItem :=
  mkBlacklistItem (id r) (PyStr (item r)) (retired r).

Definition add (self : Category) (item : PyVal) (db : Schema)
  : BlacklistItem * Schema :=
  let '(row_id, t) := insert_returning_id (str item) (db self) in
  (mkBlacklistItem row_id item false, set_table self t db).

Definition get_by_value (self : Category) (item : PyVal) (db : Schema)
  : option BlacklistItem :=
  match select_fetchrow (item_is (str item)) (db self) with
  | None => None
  | Some row => if retired row then None else Some (of_row row)
  end.

Definition get (self : Category) (index : Z) (db : Schema)
  : option BlacklistItem :=
  of_row <$> select_fetchrow (id_is index) (db self).

Definition retire (self : Category) (item : PyVal) (db : Schema)
  : option Z * Schema :=
  let '(result, t) := update_retired_returning_id (item_is (str item)) (db self) in
  (result, set_table self t db).

Definition get_all (self : Category) (db : Schema) : list BlacklistItem :=
  of_row <$> select_fetch (λ r, negb (retired r)) (db self).

Definition get_indices (self : Category) (indices : list Z) (db : Schema)
  : list BlacklistItem :=
  of_row <$> select_fetch (λ r, bool_decide (id r ∈ indices)) (db self).

(** *** Histories of store calls *)

Inductive Call :=
  | CallAdd (self : Category) (item : PyVal)
  | CallRetire (self : Category) (item : PyVal).

Definition step (c : Call) (db : Schema) : Schema :=
  match c with
  | CallAdd self item => (add self item db).2
  | CallRetire self item => (retire self item db).2
  end.

Definition run (calls : list Call) (db : Schema) : Schema :=
  foldl (λ db c, step c db) db calls.

(** The indices [add] hands out in category [self] along a history,
    oldest first. *)
Fixpoint assigned (self : Category) (calls : list Call) (db : Schema) : list Z :=
  match calls with
  | [] => []
  | c :: calls' =>
      match c with
      | CallAdd self' item =>
          if decide (self' = self)
          then index (add self' item db).1 :: assigned self calls' (step c db)
          else assigned self calls' (step c db)
      | CallRetire _ _ => assigned self calls' (step c db)
      end
  end.

(** Every id in the table was handed out before, and only once. *)
Definition wf (t : Table) : Prop :=
  Forall (λ r, id r < next_id t) (rows t) ∧ NoDup (id <$> rows t).

Definition wf_schema (db : Schema) : Prop := ∀ c, wf (db c).

(** The row a scan by id meets first. *)
Definition row_at (i : Z) (t : Table) : option Row := select_fetchrow (id_is i) t.

(** Table [t] has, under id [i], a row with item [s], retired when
    [was_retired] says so. *)
Definition holds (i : Z) (s : string) (was_retired : bool) (t : Table) : Prop :=
  ∃ r, row_at i t = Some r ∧ id r = i ∧ item r = s
       ∧ (was_retired = true → retired r = true).

(** The category a call addresses. *)
Definition call_category (c : Call) : Category :=
  match c with
  | CallAdd self _ => self
  | CallRetire self _ => self
  end.

(** The calls of a history that address [self]. *)
Definition calls_on (self : Category) (calls : list Call) : list Call :=
  List.filter (λ c, bool_decide (call_category c = self)) calls.

End AutobahnBlacklist.

(** ** Coroutines: a store passed along, and exceptions *)

Definition M (S A : Type) : Type := S → S * Result A.

Definition ret {S A} (a : A) : M S A := λ s, (s, Ok a).
Definition raise {S A} (e : Exc) : M S A := λ s, (s, Raise e).
Definition bind {S A B} (m : M S A) (k : A → M S B) : M S B :=
  λ s, match m s with
       | (s', Ok a) => k a s'
       | (s', Raise e) => (s', Raise e)
       end.
Definition gets {S A} (f : S → A) : M S A := λ s, (s, Ok (f s)).
Definition modify {S} (f : S → S) : M S unit := λ s, (f s, Ok tt).

(** [try: m  except e: handler] *)
Definition try_except {S A} (m : M S A) (e : Exc) (handler : M S A) : M S A :=
  λ s, match m s with
       | (s', Raise e') => if decide (e' = e) then handler s' else (s', Raise e')
       | r => r
       end.

Declare Scope py_scope.
Delimit Scope py_scope with py.
Notation "x <- m ;; k" := (bind m (λ x, k))
  (at level 100, m at next level, right associativity) : py_scope.
Notation "m ;; k" := (bind m (λ _, k))
  (at level 100, right associativity) : py_scope.

(** [for x in xs: body x] *)
Fixpoint for_ {S A} (xs : list A) (body : A → M S unit) : M S unit :=
  match xs with
  | [] => ret tt
  | x :: xs' => (body x ;; for_ xs' body)%py
  end.

(** ** Python's [int(s)] on a [str] *)

Module PyInt.

(** Whitespace that [int] strips: tab to carriage return, the four
    separators 0x1c to 0x1f, and the space. *)
Definition isspace (a : ascii) : bool :=
  let n := nat_of_ascii a in
  ((9 <=? n) && (n <=? 13) || (28 <=? n) && (n <=? 31) || (n =? 32))%nat.

Definition digit (a : ascii) : option Z :=
  let n := nat_of_ascii a in
  if ((48 <=? n) && (n <=? 57))%nat then Some (Z.of_nat n - 48) else None.

Fixpoint lstrip (l : list ascii) : list ascii :=
  match l with
  | a :: l' => if isspace a then lstrip l' else l
  | [] => []
  end.

Definition strip (l : list ascii) : list ascii :=
  reverse (lstrip (reverse (lstrip l))).

(** What preceded the current character inside the digit string. *)
Inductive Prev := AtStart | AfterDigit | AfterUnderscore.

(** Decimal digits, where single underscores may sit between digits. *)
Fixpoint digits (prev : Prev) (acc : Z) (l : list ascii) : option Z :=
  match l with
  | [] => match prev with AfterDigit => Some acc | _ => None end
  | a :: l' =>
      match digit a with
      | Some d => digits AfterDigit (10 * acc + d) l'
      | None =>
          if bool_decide (a = "_"%char)
          then match prev with
               | AfterDigit => digits AfterUnderscore acc l'
               | _ => None
               end
          else None
      end
  end.

(** [int(s)]: [None] stands for [ValueError].  Strings are ASCII text:
    digits and spaces outside ASCII are not represented, nor is the
    limit that recent interpreters put on the number of digits. *)
Definition int (s : string) : option Z :=
  match strip (String.list_ascii_of_string s) with
  | "+"%char :: l => digits AtStart 0 l
  | "-"%char :: l => Z.opp <$> digits AtStart 0 l
  | l => digits AtStart 0 l
  end.

End PyInt.

(** ** database/postgres.py: the ban list *)

Module BanList.

(** A row of [banlist] without its key:
    [banlist(id BIGINT, reason TEXT, date TIMESTAMP, message TEXT)],
    [id] being the conflict target of the upsert. *)
Record Row := mkRow { reason : string; date : Z; message : option string }.

(** The table, keyed by [id]. *)
Abbreviation Table := (gmap Z Row).

(** [database.types.BannedUser(id, reason)] *)
Record BannedUser := mkBannedUser { bu_id : Z; bu_reason : string }.

(** An element of the list [upsert_multiple] is given: a dict with the
    keys ['id'] and ['reason'], both strings read from the CSV. *)
Record Ban := mkBan { ban_id : string; ban_reason : string }.

Definition get_user (uid : Z) (t : Table) : option BannedUser :=
  (λ row, mkBannedUser uid (reason row)) <$> t !! uid.

Definition remove (uid : Z) (t : Table) : Table := delete uid t.

Definition get_all (t : Table) : list BannedUser :=
  (λ kv, mkBannedUser kv.1 (reason kv.2)) <$> map_to_list t.

Definition total_count (t : Table) : nat := size t.

(** [[(int(u['id']), str(u['reason']), now, None) for u in bans]]:
    the first id that is no integer raises [ValueError]. *)
Fixpoint records (now : Z) (bans : list Ban) : Result (list (Z * Row)) :=
  match bans with
  | [] => Ok []
  | u :: bans' =>
      match PyInt.int (ban_id u) with
      | None => Raise ValueError
      | Some i =>
          match records now bans' with
          | Ok rs => Ok ((i, mkRow (ban_reason u) now None) :: rs)
          | Raise e => Raise e
          end
      end
  end.

Definition is_bigint (i : Z) : bool :=
  bool_decide (- 2 ^ 63 ≤ i < 2 ^ 63).

(** One proposed row of
    [INSERT INTO banlist SELECT * FROM _data ON CONFLICT (id)
     DO UPDATE SET reason=excluded.reason, date=excluded.date]. *)
Definition upsert (r : Z * Row) (t : Table) : Table :=
  match t !! r.1 with
  | None => <[r.1 := r.2]> t
  | Some old => <[r.1 := mkRow (reason r.2) (date r.2) (message old)]> t
  end.

(** [upsert_multiple]: the whole method runs in one transaction, so a
    failure leaves the table as it was.
    - the conversion of the ids comes first and may raise;
    - [copy_records_to_table] refuses an id outside BIGINT;
    - PostgreSQL refuses an [ON CONFLICT DO UPDATE] statement whose
      proposed rows contain the same conflict key twice ("command
      cannot affect row a second time"). *)
Definition upsert_multiple (bans : list Ban) (now : Z) : M Table unit :=
  λ t,
    match records now bans with
    | Raise e => (t, Raise e)
    | Ok rs =>
        if negb (forallb (λ r, is_bigint r.1) rs) then (t, Raise DataError)
        else if bool_decide (NoDup rs.*1)
             then (foldl (λ t r, upsert r t) t rs, Ok tt)
             else (t, Raise CardinalityViolationError)
    end.

(** [get_multiple]: [WHERE id = ANY($1::BIGINT[])]. *)
Definition get_multiple (uids : list Z) (t : Table) : list BannedUser :=
  List.filter (λ u, bool_decide (bu_id u ∈ uids)) (get_all t).

(** [count_reason]: [SELECT count( * ) ... WHERE reason = $1]. *)
Definition count_reason (reason : string) (t : Table) : nat :=
  length (List.filter (λ u, bool_decide (bu_reason u = reason)) (get_all t)).

(** [list(map(int, not_in))]: the first element that is no integer
    raises [ValueError]. *)
Fixpoint ints (not_in : list string) : Result (list Z) :=
  match not_in with
  | [] => Ok []
  | s :: rest =>
      match PyInt.int s with
      | None => Raise ValueError
      | Some i =>
          match ints rest with
          | Ok rest' => Ok (i :: rest')
          | Raise e => Raise e
          end
      end
  end.

(** [get_all_not_in]: [WHERE NOT (id = ANY($1::BIGINT[]))]; the driver
    refuses an element outside BIGINT. *)
Definition get_all_not_in (not_in : list string) (t : Table)
  : Result (list BannedUser) :=
  match ints not_in with
  | Raise e => Raise e
  | Ok ids =>
      if negb (forallb is_bigint ids) then Raise DataError
      else Ok (List.filter (λ u, bool_decide (bu_id u ∉ ids)) (get_all t))
  end.

End BanList.

(** ** database/postgres.py: the chats *)

Module Chats.

Section tags.

(** The values a tag may take.  The column [tags] holds the JSON text
    of the dict; [json.loads] of [json.dumps] gives the dict back, so the
    column is kept as the dict itself, ['{}'] being the empty dict. *)
Context {V : Type}.

(** [database.types.Chat(id, tags)] *)
Record Chat := mkChat { id : Z; tags : gmap string V }.

(** [INSERT INTO chats VALUES ($1, '{}') ON CONFLICT DO NOTHING], and
    the answer [Chat(chat_id, {})]. *)
Definition add (chat_id : Z) (t : gmap Z (gmap string V))
  : gmap Z (gmap string V) * Chat :=
  (match t !! chat_id with
   | None => <[chat_id := ∅]> t
   | Some _ => t
   end,
   mkChat chat_id ∅).

Definition get (chat_id : Z) (t : gmap Z (gmap string V))
  : gmap Z (gmap string V) * Chat :=
  match t !! chat_id with
  | Some row_tags => (t, mkChat chat_id row_tags)
  | None => add chat_id t
  end.

(** [UPDATE chats SET tags=$1 WHERE id=$2] *)
Definition update_tags (chat_id : Z) (new : gmap string V)
    (t : gmap Z (gmap string V)) : gmap Z (gmap string V) :=
  match t !! chat_id with
  | Some _ => <[chat_id := new]> t
  | None => t
  end.

End tags.

End Chats.

(** ** utils/helpers.py *)

Module helpers.

(** [rose_csv_to_dict].  Its argument here is the sequence of rows
    that [csv.reader] yields for the decoded file, header included; a
    row is the list of its fields.  [line[0]] raises [IndexError] on an
    empty row (a blank line). *)
Fixpoint rose_csv_lines (csv_file : list (list string)) : Result (list BanList.Ban) :=
  match csv_file with
  | [] => Ok []
  | line :: rest =>
      match head line, last line with
      | Some _id, Some reason =>
          match rose_csv_lines rest with
          | Ok bans => Ok (BanList.mkBan _id reason :: bans)
          | Raise e => Raise e
          end
      | _, _ => Raise IndexError
      end
  end.

Definition rose_csv_to_dict (csv_file : list (list string)) : Result (list BanList.Ban) :=
  (* next(csv_file, None): skip the header *)
  rose_csv_lines (tail csv_file).

End helpers.

Definition lift {S A} (r : Result A) : M S A := λ s, (s, r).

(** ** plugins/autobahn/banlist.py *)

Module banlist.

Definition SWAPI_SLICE_LENGTH : nat := 50.

(** [spamwatch.types.Permission] *)
Inductive Permission := Root | Admin | User.

(** [spamwatch.types.Ban(int(uid), reason, admin_id)] *)
Record SwBan := mkSwBan { sw_user : Z; sw_reason : string; sw_admin : Z }.

(** The client: [client.sw] is [None] when no authority is configured;
    [me] is [(await client.get_me()).id]; [add_bans_raises] tells, from
    the calls made so far, whether the next [client.sw.add_bans] call
    raises. *)
Record Client := mkClient {
  sw : option Permission;
  me : Z;
  add_bans_raises : list (list SwBan) → list SwBan → bool
}.

(** The replied-to message: [reply_ext] is the extension that
    [os.path.splitext] finds in the file name, [reply_csv] the rows
    [csv.reader] yields for the downloaded bytes. *)
Record Message := mkMessage {
  is_reply : bool;
  reply_ext : string;
  reply_csv : list (list string)
}.

(** The store, the batches handed to [db.banlist.upsert_multiple] and
    the calls to [client.sw.add_bans], oldest first. *)
Record World := mkWorld {
  db_banlist : BanList.Table;
  upsert_multiple_calls : list (list BanList.Ban);
  add_bans_calls : list (list SwBan)
}.

(** What the command answers with; the elapsed time is left out. *)
Inductive MDTeXDocument :=
  | Error (text : string)
  | ImportResult (added : nat).

(** [await db.banlist.upsert_multiple(bans)] *)
Definition upsert_multiple (bans : list BanList.Ban) (now : Z) : M World unit :=
  λ w, let '(t, r) := BanList.upsert_multiple bans now (db_banlist w) in
       (mkWorld t (upsert_multiple_calls w ++ [bans]) (add_bans_calls w), r).

(** [client.sw.add_bans(bans)] *)
Definition add_bans (client : Client) (bans : list SwBan) : M World unit :=
  λ w, let w' := mkWorld (db_banlist w) (upsert_multiple_calls w)
                         (add_bans_calls w ++ [bans]) in
       if add_bans_raises client (add_bans_calls w) bans
       then (w', Raise SpamWatchError)
       else (w', Ok tt).

(** [bans[reason] = bans.get(reason, []) + [uid]] on a dict, which
    keeps its keys in the order of their first insertion. *)
Fixpoint dict_append (reason uid : string) (bans : list (string * list string))
  : list (string * list string) :=
  match bans with
  | [] => [(reason, [uid])]
  | (k, uids) :: bans' =>
      if decide (k = reason) then (k, uids ++ [uid]) :: bans'
      else (k, uids) :: dict_append reason uid bans'
  end.

Definition by_reason (_banlist : list BanList.Ban) : list (string * list string) :=
  foldl (λ bans b, dict_append (BanList.ban_reason b) (BanList.ban_id b) bans)
        [] _banlist.

(** [Ban(int(uid), reason, admin_id)]; [None] when [int(uid)] raises. *)
Definition sw_ban (reason : string) (admin_id : Z) (uid : string) : option SwBan :=
  (λ i, mkSwBan i reason admin_id) <$> PyInt.int uid.

(** [[Ban(int(uid), reason, admin_id) for uid in uids]] *)
Fixpoint sw_bans (reason : string) (admin_id : Z) (uids : list string)
  : Result (list SwBan) :=
  match uids with
  | [] => Ok []
  | uid :: uids' =>
      match sw_ban reason admin_id uid with
      | None => Raise ValueError
      | Some b =>
          match sw_bans reason admin_id uids' with
          | Ok bs => Ok (b :: bs)
          | Raise e => Raise e
          end
      end
  end.

(** The loop
    [while uids_copy:
         client.sw.add_bans([... for uid in uids_copy[:SWAPI_SLICE_LENGTH]])
         uids_copy = uids_copy[SWAPI_SLICE_LENGTH:]]
    An exception of [add_bans] is not caught here: it leaves the loop. *)
Equations? push_slices (client : Client) (reason : string) (admin_id : Z)
    (uids_copy : list string) : M World unit by wf (length uids_copy) lt :=
  push_slices client reason admin_id [] := ret tt;
  push_slices client reason admin_id (uid :: rest) :=
    (slice <- lift (sw_bans reason admin_id (take SWAPI_SLICE_LENGTH (uid :: rest))) ;;
     add_bans client slice ;;
     push_slices client reason admin_id (drop SWAPI_SLICE_LENGTH (uid :: rest)))%py.
Proof. unfold SWAPI_SLICE_LENGTH. rewrite length_drop. simpl. lia. Qed.

Definition sufficient (p : Permission) : bool :=
  match p with
  | Admin | Root => true
  | User => false
  end.

(** [import_]; [now] is the clock read by [upsert_multiple]. *)
Definition import_ (client : Client) (now : Z) (msg : Message)
  : M World (option MDTeXDocument) :=
  if negb (is_reply msg) then ret None
  else if negb (bool_decide (reply_ext msg = ".csv"))
  then ret (Some (Error "File is not a CSV"))
  else
    (_banlist <- lift (helpers.rose_csv_to_dict (reply_csv msg)) ;;
     match _banlist with
     | [] => ret tt
     | _ :: _ =>
         upsert_multiple _banlist now ;;
         match sw client with
         | Some permission =>
             if sufficient permission
             then
               let bans := by_reason _banlist in
               let admin_id := me client in
               for_ bans (λ '(reason, uids),
                          push_slices client reason admin_id uids)
             else ret tt
         | None => ret tt
         end
     end ;;
     ret (Some (ImportResult (length _banlist))))%py.

(** The records of a batch as the authority is to receive them. *)
Definition imported (admin_id : Z) (batch : list BanList.Ban) : list SwBan :=
  omap (λ b, sw_ban (BanList.ban_reason b) admin_id (BanList.ban_id b)) batch.

(** A slice holds between 1 and [SWAPI_SLICE_LENGTH] bans, all with one
    reason and signed by the importer. *)
Definition slice_ok (admin_id : Z) (slice : list SwBan) : Prop :=
  (0 < length slice ≤ SWAPI_SLICE_LENGTH)%nat
  ∧ ∃ reason, Forall (λ b, sw_reason b = reason ∧ sw_admin b = admin_id) slice.

(** The (reason, id) pairs of a dict of ids by reason. *)
Definition pairs_of (bans : list (string * list string)) : list (string * string) :=
  bans ≫= (λ '(reason, uids), (λ uid, (reason, uid)) <$> uids).

(** An id that [int] accepts. *)
Definition parses (uid : string) : Prop := is_Some (PyInt.int uid).

Definition pair_of (b : BanList.Ban) : string * string :=
  (BanList.ban_reason b, BanList.ban_id b).

(** The bans a dict of ids by reason stands for, in the order in which
    the loops of [import_] go through it. *)
Definition group_bans (admin_id : Z) (bans : list (string * list string)) : list SwBan :=
  omap (λ '(reason, uid), sw_ban reason admin_id uid) (pairs_of bans).

(** What a run of pushes from [w] that was to send [expected] may end
    in: the store is left alone; the calls made are slices; when the run
    returns, the slices together are [expected]; when it raises, it is
    the last call made that raised; and it returns whenever the
    authority never raises. *)
Definition push_outcome (client : Client) (admin_id : Z) (w : World)
    (expected : list SwBan) (run : World * Result unit) : Prop :=
  db_banlist run.1 = db_banlist w
  ∧ upsert_multiple_calls run.1 = upsert_multiple_calls w
  ∧ ∃ pushed,
      add_bans_calls run.1 = add_bans_calls w ++ pushed
      ∧ Forall (slice_ok admin_id) pushed
      ∧ match run.2 with
        | Ok _ => concat pushed = expected
        | Raise e =>
            e = SpamWatchError
            ∧ ∃ earlier slice,
                pushed = earlier ++ [slice]
                ∧ add_bans_raises client (add_bans_calls w ++ earlier) slice = true
        end
      ∧ ((∀ calls slice, add_bans_raises client calls slice = false) →
         run.2 = Ok tt).

(** *** [query] *)

(** An item of the section 'Query Results'. *)
Inductive QueryItem :=
  | UserReason (uid : Z) (reason : string)   (* KeyValueItem(Code(id), reason) *)
  | ItalicNone                               (* Italic('None') *)
  | Count (count : nat)
  | TotalCount (count : nat).

(** [query]: [args] are the ids given, [reason] is
    [kwargs.get('reason')]. *)
Definition query (args : list Z) (reason : option string) (t : BanList.Table)
  : list QueryItem :=
  match args with
  | _ :: _ =>
      match (λ user, UserReason (BanList.bu_id user) (BanList.bu_reason user))
              <$> BanList.get_multiple args t with
      | [] => [ItalicNone]
      | query_results => query_results
      end
  | [] =>
      match reason with
      | Some reason => [Count (BanList.count_reason reason t)]
      | None => [TotalCount (BanList.total_count t)]
      end
  end.

(** *** [export] *)

(** How [export] ends: the rows written to the file that is sent, or
    an exception; [TypeError] is what [map(int, None)] raises. *)
Inductive Exported :=
  | Sent (rows : list (list string))
  | Raised (e : Exc)
  | RaisedTypeError.

(** The local variable [_banlist] of [export]. *)
Inductive Binding :=
  | Unbound
  | BoundNone
  | Bound (ids : list string).

(** [cwriter.writerow(['id', 'reason'])] and one
    [cwriter.writerow([user.id, user.reason])] per user. *)
Definition export_rows (users : list BanList.BannedUser) : list (list string) :=
  ["id"; "reason"]
  :: ((λ user, [pretty (BanList.bu_id user); BanList.bu_reason user]) <$> users).

(** [export]; [with_diff] is the truth value of
    [kwargs.get('diff', False)]. *)
Definition export (with_diff : bool) (msg : Message) (t : BanList.Table)
  : Exported :=
  let _banlist : Result Binding :=
    if with_diff && is_reply msg then
      if bool_decide (reply_ext msg = ".csv") then
        match helpers.rose_csv_to_dict (reply_csv msg) with
        | Ok _banlist => Ok (Bound (BanList.ban_id <$> _banlist))
        | Raise e => Raise e
        end
      else Ok Unbound
    else Ok BoundNone in
  match _banlist with
  | Raise e => Raised e
  | Ok _banlist =>
      let users : Exported + list BanList.BannedUser :=
        if with_diff then
          match _banlist with
          | Unbound => inl (Raised UnboundLocalError)
          | BoundNone => inl RaisedTypeError
          | Bound ids =>
              match BanList.get_all_not_in ids t with
              | Ok users => inr users
              | Raise e => inl (Raised e)
              end
          end
        else inr (BanList.get_all t) in
      match users with
      | inl raised => raised
      | inr users => Sent (export_rows users)
      end
  end.

End banlist.

(** ** plugins/autobahn/autobahn_mgr.py *)

Module autobahn_mgr.

Import AutobahnBlacklist.

Definition AUTOBAHN_TYPES : list (string * string) :=
  [("bio", "0x0"); ("string", "0x1"); ("filename", "0x2"); ("channel", "0x3");
   ("domain", "0x4"); ("file", "0x5"); ("mhash", "0x6"); ("tld", "0x7")].

(** [AUTOBAHN_TYPES.get(item_type)] *)
Definition AUTOBAHN_TYPES_get (item_type : string) : option string :=
  snd <$> List.find (λ kv, bool_decide (kv.1 = item_type)) AUTOBAHN_TYPES.

(** [db.blacklists.get(hex_type)]: the lookup in [ab_collection_map],
    whose keys are the [hex_type]s of the six tables. *)
Definition blacklists_get (hex_type : option string) : option Category :=
  match hex_type with
  | None => None
  | Some h =>
      List.find (λ c, bool_decide (AutobahnBlacklist.hex_type c = h))
        [AutobahnBioBlacklist; AutobahnStringBlacklist; AutobahnChannelBlacklist;
         AutobahnDomainBlacklist; AutobahnFileBlacklist; AutobahnMHashBlacklist]
  end.

(** A call on the command message. *)
Inductive MsgCall :=
  | msg_edit (text : string)
  | download_media
  | msg_delete.

(** The command message and the message it replies to. *)
Record Message := mkMessage {
  is_reply : bool;
  reply_file : option (list ascii);   (* [reply_msg.file], downloaded *)
  reply_photo : option (list ascii)   (* [reply_msg.photo], downloaded *)
}.

(** The store, the calls on the message, and the local variables of the
    running command.  [item] is the loop variable of [for item in
    items]: [None] while nothing has been assigned to it. *)
Record State := mkState {
  blacklists : Schema;
  msg_calls : list MsgCall;
  added_items : list (Z * PyVal);
  existing_items : list (Z * PyVal);
  skipped_items : list PyVal;
  removed_items : list PyVal;
  warn_message : string;
  item : option PyVal
}.

Definition start (db : Schema) : State := mkState db [] [] [] [] [] EmptyString None.

Definition on_blacklists {A} (m : Schema → Schema * A) : M State A :=
  λ s, let '(db, a) := m (blacklists s) in
       (mkState db (msg_calls s) (added_items s) (existing_items s)
                (skipped_items s) (removed_items s) (warn_message s) (item s),
        Ok a).

Definition call (c : MsgCall) : M State unit :=
  modify (λ s, mkState (blacklists s) (msg_calls s ++ [c]) (added_items s)
                       (existing_items s) (skipped_items s) (removed_items s)
                       (warn_message s) (item s)).

Definition added_items_append (kv : Z * PyVal) : M State unit :=
  modify (λ s, mkState (blacklists s) (msg_calls s) (added_items s ++ [kv])
                       (existing_items s) (skipped_items s) (removed_items s)
                       (warn_message s) (item s)).

Definition existing_items_append (kv : Z * PyVal) : M State unit :=
  modify (λ s, mkState (blacklists s) (msg_calls s) (added_items s)
                       (existing_items s ++ [kv]) (skipped_items s)
                       (removed_items s) (warn_message s) (item s)).

Definition skipped_items_append (v : PyVal) : M State unit :=
  modify (λ s, mkState (blacklists s) (msg_calls s) (added_items s)
                       (existing_items s) (skipped_items s ++ [v])
                       (removed_items s) (warn_message s) (item s)).

Definition removed_items_append (v : PyVal) : M State unit :=
  modify (λ s, mkState (blacklists s) (msg_calls s) (added_items s)
                       (existing_items s) (skipped_items s)
                       (removed_items s ++ [v]) (warn_message s) (item s)).

Definition set_warn_message (w : string) : M State unit :=
  modify (λ s, mkState (blacklists s) (msg_calls s) (added_items s)
                       (existing_items s) (skipped_items s) (removed_items s)
                       w (item s)).

Definition set_item (v : PyVal) : M State unit :=
  modify (λ s, mkState (blacklists s) (msg_calls s) (added_items s)
                       (existing_items s) (skipped_items s) (removed_items s)
                       (warn_message s) (Some v)).

(** Reading the local variable [item]. *)
Definition read_item : M State PyVal :=
  λ s, match item s with
       | Some v => (s, Ok v)
       | None => (s, Raise UnboundLocalError)
       end.

(** The methods of the blacklist object the commands hold.  The wrapper
    classes of [database/database.py] are not part of the sources; their
    [add], [get_by_value] and [get] are taken to hand the call to the
    table of [database/postgres.py]. *)
Definition blacklist_add (self : Category) (v : PyVal) : M State BlacklistItem :=
  on_blacklists (λ db, let '(e, db') := add self v db in (db', e)).

Definition blacklist_get_by_value (self : Category) (v : PyVal)
  : M State (option BlacklistItem) :=
  gets (λ s, get_by_value self v (blacklists s)).

(** [index] goes into [WHERE id = $1]; a value that is no integer is
    refused by the driver. *)
Definition blacklist_get (self : Category) (index : PyVal)
  : M State (option BlacklistItem) :=
  match index with
  | PyInt i => gets (λ s, get self i (blacklists s))
  | _ => raise DataError
  end.

(** Modelled from the spec: [retire] of the wrapper class in
    [database/database.py], which is not part of the sources: "retire
    ... fails with NotFound", here [ItemDoesNotExistError], when the
    UPDATE of [database/postgres.py] returns no row. *)
Definition blacklist_retire (self : Category) (v : PyVal) : M State Z :=
  λ s, match retire self v (blacklists s) with
       | (Some i, db) =>
           (mkState db (msg_calls s) (added_items s) (existing_items s)
                    (skipped_items s) (removed_items s) (warn_message s) (item s),
            Ok i)
       | (None, db) =>
           (mkState db (msg_calls s) (added_items s) (existing_items s)
                    (skipped_items s) (removed_items s) (warn_message s) (item s),
            Raise ItemDoesNotExistError)
       end.

(** The answer of a command. *)
Inductive MDTeXDocument :=
  | Error (text : string)
  | Report (added existing : list (Z * PyVal)) (skipped removed : list PyVal)
           (warning : string).

Definition report : M State MDTeXDocument :=
  gets (λ s, Report (added_items s) (existing_items s) (skipped_items s)
                    (removed_items s) (warn_message s)).

(** [s.replace(c, '')] *)
Fixpoint remove_char (c : ascii) (s : string) : string :=
  match s with
  | EmptyString => EmptyString
  | String a s' => if bool_decide (a = c) then remove_char c s'
                   else String a (remove_char c s')
  end.

(** [Counter(s).get(c, 0)] *)
Fixpoint count_char (c : ascii) (s : string) : nat :=
  match s with
  | EmptyString => 0%nat
  | String a s' => ((if bool_decide (a = c) then 1 else 0) + count_char c s')%nat
  end.

(** What the resolution of one channel token ends in. *)
Inductive Resolved :=
  | Skipped (label : PyVal)   (* appended to [skipped_items]; [continue] *)
  | Key (item : PyVal).       (* the new value of [item] *)

Section commands.

(** The collaborators of the commands:
    - [resolve_channel]: lines 76 to 97 of [add], which turn a channel
      token into a chat id through [resolve_invite_link] and
      [get_entity], or skip it when [get_entity] fails;
    - [resolve_url]: [(await client.resolve_url(item)).lower()];
    - [TELEGRAM_DOMAINS]: the constant of [utils/constants.py];
    - [resolve_invite_link]: the chat id [helpers.resolve_invite_link]
      finds in a link, if any;
    - [hash_file]: [hashlib.sha512(file).hexdigest()];
    - [hash_photo]: [photohash.average_hash] as a string. *)
Variable resolve_channel : string → Resolved.
Variable resolve_url : string → string.
Variable TELEGRAM_DOMAINS : list string.
Variable resolve_invite_link : string → option Z.
Variable hash_file : list ascii → string.
Variable hash_photo : list ascii → string.

(** The body of [for item in items] in [add]. *)
Definition add_item (hex_type : option string) (blacklist : option Category)
    (item0 : string) : M State unit :=
  (set_item (PyStr item0) ;;
   match hex_type, blacklist with
   | Some hex_type, Some blacklist =>
       let lookup_or_add : M State unit :=
         (item <- read_item ;;
          if bool_decide (item = PyNone)
          then skipped_items_append item
          else
            existing_one <- blacklist_get_by_value blacklist item ;;
            match existing_one with
            | None =>
                entry <- blacklist_add blacklist item ;;
                added_items_append (index entry, value entry)
            | Some existing_one =>
                existing_items_append (index existing_one, value existing_one)
            end) in
       if bool_decide (hex_type = "0x3") then
         match resolve_channel item0 with
         | Skipped _item => set_item PyNone ;; skipped_items_append _item
         | Key item => set_item item ;; lookup_or_add
         end
       else if bool_decide (hex_type = "0x4") then
         let item := resolve_url item0 in
         set_item (PyStr item) ;;
         if bool_decide (item ∈ TELEGRAM_DOMAINS)
         then skipped_items_append (PyStr item)
         else lookup_or_add
       else if bool_decide (hex_type = "0x7") then
         set_item (PyStr (remove_char "." item0)) ;; lookup_or_add
       else lookup_or_add
   | _, _ => ret tt
   end)%py.

(** [if not items and hex_type == '0x5': ...]; [Some doc] is an early
    [return doc]. *)
Definition add_file (blacklist : Category) (msg : Message)
  : M State (option MDTeXDocument) :=
  if negb (is_reply msg) then ret (Some (Error "Need to reply to a file"))
  else
    match reply_file msg with
    | None => ret (Some (Error "Need to reply to a file"))
    | Some file =>
        (call (msg_edit "Downloading file, this may take a while.") ;;
         call download_media ;;
         let file_hash := hash_file file in
         call msg_delete ;;
         item <- read_item ;;
         existing_one <- blacklist_get blacklist item ;;
         match existing_one with
         | None =>
             (* the [KeyValueItem] built from [entry] is dropped *)
             entry <- blacklist_add blacklist (PyStr file_hash) ;;
             ret None
         | Some existing_one =>
             existing_items_append (index existing_one, value existing_one) ;;
             ret None
         end)%py
    end.

(** [if not items and hex_type == '0x6': ...] *)
Definition add_photo (blacklist : Category) (msg : Message)
  : M State (option MDTeXDocument) :=
  if negb (is_reply msg) then ret (Some (Error "Need to reply to a photo"))
  else
    match reply_photo msg with
    | None => ret (Some (Error "Need to reply to a photo"))
    | Some dl_photo =>
        (call (msg_edit "Hashing photo, this may take a moment.") ;;
         call download_media ;;
         let photo_hash := hash_photo dl_photo in
         call msg_delete ;;
         existing_one <- blacklist_get_by_value blacklist (PyStr photo_hash) ;;
         match existing_one with
         | None =>
             entry <- blacklist_add blacklist (PyStr photo_hash) ;;
             (if bool_decide (8 < count_char "0" photo_hash)%nat
              then set_warn_message
                     ("The image seems to contain a lot of the same color."
                      +:+ " This might lead to false positives.")
              else ret tt) ;;
             added_items_append (index entry, value entry) ;;
             ret None
         | Some existing_one =>
             existing_items_append (index existing_one, value existing_one) ;;
             ret None
         end)%py
    end.

(** [blacklist.<method>] when [blacklist] is [None]. *)
Definition the_blacklist (blacklist : option Category) : M State Category :=
  match blacklist with
  | Some b => ret b
  | None => raise AttributeError
  end.

(** The command [add]; [args] is [item_type :: items]. *)
Definition add (msg : Message) (item_type : string) (items : list string)
  : M State MDTeXDocument :=
  let hex_type := AUTOBAHN_TYPES_get item_type in
  let blacklist := blacklists_get hex_type in
  (for_ items (add_item hex_type blacklist) ;;
   early <- (if bool_decide (items = []) && bool_decide (hex_type = Some "0x5")
             then b <- the_blacklist blacklist ;; add_file b msg
             else ret None) ;;
   match early with
   | Some doc => ret doc
   | None =>
       early <- (if bool_decide (items = []) && bool_decide (hex_type = Some "0x6")
                 then b <- the_blacklist blacklist ;; add_photo b msg
                 else ret None) ;;
       match early with
       | Some doc => ret doc
       | None => report
       end
   end)%py.

(** The body of [for item in items] in [del_]. *)
Definition del_item (item_type : string) (item0 : string) : M State unit :=
  let hex_type := AUTOBAHN_TYPES_get item_type in
  let blacklist := blacklists_get hex_type in
  match hex_type, blacklist with
  | Some hex_type, Some blacklist =>
      let item :=
        if bool_decide (hex_type = "0x3")
        then match resolve_invite_link item0 with
             | Some chat_id => PyInt chat_id
             | None => PyNone
             end
        else PyStr item0 in
      try_except
        (blacklist_retire blacklist item ;; removed_items_append item)%py
        ItemDoesNotExistError
        (skipped_items_append item)
  | _, _ => ret tt
  end.

(** The command [del_]. *)
Definition del_ (item_type : string) (items : list string) : M State MDTeXDocument :=
  (for_ items (del_item item_type) ;; report)%py.

End commands.

(** *** [query] *)

(* any higher and the message will exceed the 100 entity limit *)
Definition MAX_QUERY_ITEMS : nat := 45.

(** A parsed argument: a string, an integer, or a range or list of
    integers. *)
Inductive Arg :=
  | ArgStr (s : string)
  | ArgInt (z : Z)
  | ArgSeq (zs : list Z).

(** The answer of [query]: the section with its items, and the line
    with the total count when there is one. *)
Inductive QueryDocument :=
  | QueryError (text : string)
  | Items (item_type : Arg) (hex_type : Arg)
          (items : list (Z * PyVal)) (total_count : option nat).

(** [AUTOBAHN_TYPES.get(item_type, item_type)] *)
Definition hex_type_of (item_type : Arg) : Arg :=
  match item_type with
  | ArgStr s => match AUTOBAHN_TYPES_get s with
                | Some h => ArgStr h
                | None => item_type
                end
  | _ => item_type
  end.

(** [db.blacklists.get(hex_type)] for a key of any type. *)
Definition blacklists_get_arg (hex_type : Arg) : option Category :=
  match hex_type with
  | ArgStr h => blacklists_get (Some h)
  | _ => None
  end.

(** [list(code)[:MAX_QUERY_ITEMS]] after [if isinstance(code, int):
    code = [code]]; the characters of a non-empty string are no
    integers, and the driver refuses them. *)
Definition indices_of (code : Arg) : Result (list Z) :=
  match code with
  | ArgInt c => Ok (take MAX_QUERY_ITEMS [c])
  | ArgSeq cs => Ok (take MAX_QUERY_ITEMS cs)
  | ArgStr EmptyString => Ok []
  | ArgStr _ => Raise DataError
  end.

(** [query]; [kw_type] and [kw_code] are [kwargs.get('type')] and
    [kwargs.get('code')]. *)
Definition query (args : list Arg) (kw_type kw_code : option Arg) (db : Schema)
  : Result QueryDocument :=
  match kw_type, args with
  | None, item_type :: rest =>
      let code := match kw_code with
                  | None => head rest
                  | Some _ => kw_code
                  end in
      let hex_type := hex_type_of item_type in
      match blacklists_get_arg hex_type with
      | None => Raise AttributeError
      | Some blacklist =>
          let blacklist_items := get_all blacklist db in
          let all_items :=
            match code with
            | Some code =>
                match indices_of code with
                | Ok indices => Ok (get_indices blacklist indices db)
                | Raise e => Raise e
                end
            | None => Ok blacklist_items
            end in
          match all_items with
          | Raise e => Raise e
          | Ok all_items =>
              Ok (Items item_type hex_type
                    ((λ item, (index item, value item))
                       <$> take MAX_QUERY_ITEMS all_items)
                    (match blacklist_items with
                     | [] => None
                     | _ :: _ => Some (length blacklist_items)
                     end))
          end
      end
  | _, _ => Ok (QueryError "No blacklist name specified")
  end.

End autobahn_mgr.

(** ** plugins/autobahn/automatic/grenzschutz.py *)

Module grenzschutz.

(** [event.action_message.action] *)
Inductive MessageAction :=
  | MessageActionChatJoinedByLink
  | MessageActionChatAddUser
  | MessageActionOther.

(** [Union[ChatAction.Event, NewMessage.Event]] *)
Inductive Event :=
  | ChatAction_Event (is_private user_left user_kicked : bool)
      (action_message : option MessageAction) (user_id : option Z) (chat_id : Z)
  | NewMessage_Event (is_private : bool) (from_id : option Z) (chat_id : Z).

Definition is_private (event : Event) : bool :=
  match event with
  | ChatAction_Event p _ _ _ _ _ => p
  | NewMessage_Event p _ _ => p
  end.

Definition chat_id (event : Event) : Z :=
  match event with
  | ChatAction_Event _ _ _ _ _ c => c
  | NewMessage_Event _ _ c => c
  end.

Record ChatAdminRights := mkChatAdminRights { ban_users : bool }.

Record Channel := mkChannel {
  creator : bool;
  admin_rights : option ChatAdminRights
}.

Record User := mkUser { first_name : string }.

(** What the collaborators answer while one event is handled:
    - [get_chat]: [await event.get_chat()];
    - [tags]: [await Tags.create(event)];
    - [get_entity]: [client.get_entity], [None] when it raises
      [ValueError];
    - [db_banlist]: the ban list behind [db.banlist];
    - [admins]: the ids of [client.get_participants(event.chat_id,
      filter=ChannelParticipantsAdmins())];
    - [ban_invalid]: whether [client.ban(chat, uid)] raises
      [UserIdInvalidError]. *)
Record Env := mkEnv {
  get_chat : Channel;
  tags : gmap string string;
  get_entity : Z → option User;
  db_banlist : BanList.Table;
  admins : list Z;
  ban_invalid : Z → bool
}.

(** The notification, [delete=120]. *)
Record Notification := mkNotification {
  n_first_name : string;
  n_uid : Z;
  n_reason : string
}.

Global Instance Notification_eq_dec : EqDecision Notification.
Proof. solve_decision. Defined.

(** The calls the handler makes, in order. *)
Inductive Call :=
  | event_get_chat
  | Tags_create
  | client_get_entity (uid : Z)
  | logger_error
  | db_banlist_get (uid : Z)
  | client_get_participants (chat_id : Z)
  | client_ban (uid : Z)
  | event_delete
  | client_respond (message : Notification).

Global Instance Call_eq_dec : EqDecision Call.
Proof. solve_decision. Defined.

Definition call (c : Call) : M (list Call) unit := modify (λ calls, calls ++ [c]).

(** [await client.ban(chat, uid)] *)
Definition ban (env : Env) (uid : Z) : M (list Call) unit :=
  (call (client_ban uid) ;;
   if ban_invalid env uid then raise UserIdInvalidError else ret tt)%py.

(** The two tests on [chat.creator] and [chat.admin_rights]:
    [true] when neither of them returns. *)
Definition may_ban (chat : Channel) : bool :=
  if negb (creator chat) && negb (bool_decide (is_Some (admin_rights chat)))
  then false
  else match admin_rights chat with
       | Some rights => if negb (ban_users rights) then false else true
       | None => true
       end.

(** The tests on the shape of a [ChatAction.Event]: [true] when none of
    them returns. *)
Definition shape_ok (event : Event) : bool :=
  match event with
  | ChatAction_Event _ user_left user_kicked action_message _ _ =>
      if user_left || user_kicked then false
      else match action_message with
           | None => false
           | Some (MessageActionChatJoinedByLink | MessageActionChatAddUser) => true
           | Some MessageActionOther => false
           end
  | NewMessage_Event _ _ _ => true
  end.

(** The test on the tags [polizei] and [grenzschutz]. *)
Definition opted_out (env : Env) : bool :=
  let polizei_tag := tags env !! "polizei" in
  let grenzschutz_tag := tags env !! "grenzschutz" in
  bool_decide (grenzschutz_tag = Some "exclude")
  || bool_decide (polizei_tag = Some "exclude").

(** [event.user_id] or [event.message.from_id]. *)
Definition subject (event : Event) : option Z :=
  match event with
  | ChatAction_Event _ _ _ _ user_id _ => user_id
  | NewMessage_Event _ from_id _ => from_id
  end.

Definition grenzschutz (env : Env) (event : Event) : M (list Call) unit :=
  if is_private event then ret tt
  else if negb (shape_ok event) then ret tt
  else
    (call event_get_chat ;;
     let chat := get_chat env in
     if negb (may_ban chat) then ret tt
     else
       call Tags_create ;;
       let grenzschutz_tag := tags env !! "grenzschutz" in
       let silent := bool_decide (grenzschutz_tag = Some "silent") in
       if opted_out env then ret tt
       else
         match subject event with
         | None => ret tt
         | Some uid =>
             call (client_get_entity uid) ;;
             (* [user] stays unbound when [get_entity] raises *)
             user <- match get_entity env uid with
                     | Some u => ret (Some u)
                     | None => call logger_error ;; ret None
                     end ;;
             call (db_banlist_get uid) ;;
             match BanList.get_user uid (db_banlist env) with
             | None => ret tt
             | Some result =>
                 let ban_reason := BanList.bu_reason result in
                 call (client_get_participants (chat_id event)) ;;
                 if bool_decide (uid ∉ admins env) then
                   banned <- try_except (ban env uid ;; ret true)
                               UserIdInvalidError
                               (call logger_error ;; ret false) ;;
                   if negb banned then ret tt
                   else
                     call event_delete ;;
                     if negb silent then
                       match user with
                       | None => raise UnboundLocalError
                       | Some user =>
                           call (client_respond
                                   (mkNotification (first_name user) uid ban_reason))
                       end
                     else ret tt
                 else ret tt
             end
         end)%py.

(** The calls to [client.ban] among the calls made. *)
Definition is_ban (c : Call) : bool :=
  match c with
  | client_ban _ => true
  | _ => false
  end.

Definition ban_calls (calls : list Call) : list Call := List.filter is_ban calls.

End grenzschutz.

(** * The denylist registry *)

Section denylist_registry.

Import AutobahnBlacklist.

Implicit Types (db : Schema) (t : Table) (self : Category) (v : PyVal).

Lemma find_app_Some {A} (p : A → bool) (l l' : list A) (x : A) :
  List.find p l = Some x → List.find p (l ++ l') = Some x.
Proof.
  induction l as [|a l IH]; simpl; [done|].
  destruct (p a); [done | exact IH].
Qed.

Lemma find_app_None {A} (p : A → bool) (l l' : list A) :
  List.find p l = None → List.find p (l ++ l') = List.find p l'.
Proof.
  induction l as [|a l IH]; simpl; [done|].
  destruct (p a); [done | exact IH].
Qed.

Lemma find_map_stable {A} (p : A → bool) (f : A → A) (l : list A) :
  (∀ x, p (f x) = p x) →
  List.find p (List.map f l) = f <$> List.find p l.
Proof.
  intros Hp. induction l as [|a l IH]; simpl; [done|].
  rewrite Hp. destruct (p a); [done | exact IH].
Qed.

Lemma find_None_fresh (i : Z) (l : list Row) :
  Forall (λ r, id r < i) l → List.find (id_is i) l = None.
Proof.
  induction 1 as [|r l Hr _ IH]; simpl; [done|].
  unfold id_is at 1. rewrite bool_decide_eq_false_2 by lia. exact IH.
Qed.

Lemma get_set_table_eq self t db : set_table self t db self = t.
Proof. unfold set_table. by rewrite decide_True. Qed.

Lemma get_set_table_ne self c t db : c ≠ self → set_table self t db c = db c.
Proof. intros. unfold set_table. by rewrite decide_False. Qed.

(** The table of the category a call addresses, and the table after it. *)
Lemma add_table self v db :
  (add self v db).2 self = (insert_returning_id (str v) (db self)).2.
Proof. unfold add. simpl. apply get_set_table_eq. Qed.

Lemma add_other self c v db : c ≠ self → (add self v db).2 c = db c.
Proof. intros. unfold add. simpl. by apply get_set_table_ne. Qed.

Lemma retire_table self v db :
  (retire self v db).2 self
  = (update_retired_returning_id (item_is (str v)) (db self)).2.
Proof. unfold retire. simpl. apply get_set_table_eq. Qed.

Lemma retire_other self c v db : c ≠ self → (retire self v db).2 c = db c.
Proof. intros. unfold retire. simpl. by apply get_set_table_ne. Qed.

Lemma run_cons c calls db : run (c :: calls) db = run calls (step c db).
Proof. reflexivity. Qed.

(** ** Well-formed tables *)

Lemma wf_empty : wf empty.
Proof. split; [constructor | constructor]. Qed.

Lemma wf_insert s t : wf t → wf (insert_returning_id s t).2.
Proof.
  intros [Hlt Hnd]. split; simpl.
  - apply Forall_app. split.
    + eapply Forall_impl; [exact Hlt|]. simpl. intros; lia.
    + repeat constructor. simpl. lia.
  - rewrite fmap_app. simpl. apply NoDup_app. split_and!; [done| |apply NoDup_singleton].
    intros i Hi ->%list_elem_of_singleton.
    apply list_elem_of_fmap in Hi as (r & Hr & Hin).
    rewrite Forall_forall in Hlt. specialize (Hlt r Hin). simpl in Hlt. lia.
Qed.

Lemma update_ids (p : Row → bool) t :
  id <$> rows (update_retired_returning_id p t).2 = id <$> rows t.
Proof.
  simpl. induction (rows t) as [|r l IH]; simpl; [done|].
  f_equal; [by destruct (p r) | exact IH].
Qed.

Lemma wf_update (p : Row → bool) t : wf t → wf (update_retired_returning_id p t).2.
Proof.
  intros [Hlt Hnd]. split.
  - simpl. apply List.Forall_map. eapply Forall_impl; [exact Hlt|].
    intros r Hr. simpl. by destruct (p r).
  - by rewrite update_ids.
Qed.

Lemma wf_step (c : Call) db : wf_schema db → wf_schema (step c db).
Proof.
  intros Hwf c'. destruct c as [self v|self v]; cbn [step].
  - destruct (decide (c' = self)) as [->|Hne].
    + rewrite add_table. apply wf_insert, Hwf.
    + rewrite add_other by done. apply Hwf.
  - destruct (decide (c' = self)) as [->|Hne].
    + rewrite retire_table. apply wf_update, Hwf.
    + rewrite retire_other by done. apply Hwf.
Qed.

Lemma wf_run (calls : list Call) db : wf_schema db → wf_schema (run calls db).
Proof.
  revert db. induction calls as [|c calls IH]; intros db Hwf; [done|].
  rewrite run_cons. apply IH, wf_step, Hwf.
Qed.

Lemma wf_history (calls : list Call) : wf_schema (run calls empty_schema).
Proof. apply wf_run. intros c. apply wf_empty. Qed.

(** ** Rows stay *)

Lemma row_at_insert_old i s t r :
  row_at i t = Some r → row_at i (insert_returning_id s t).2 = Some r.
Proof. unfold row_at, select_fetchrow. simpl. apply find_app_Some. Qed.

Lemma row_at_insert_new s t :
  wf t →
  row_at (next_id t) (insert_returning_id s t).2 = Some (mkRow (next_id t) s false).
Proof.
  intros [Hlt _]. unfold row_at, select_fetchrow. simpl.
  rewrite find_app_None by (by apply find_None_fresh). simpl.
  unfold id_is. simpl. by rewrite bool_decide_eq_true_2.
Qed.

Lemma row_at_update (p : Row → bool) i t :
  row_at i (update_retired_returning_id p t).2
  = (λ r, if p r then set_retired r else r) <$> row_at i t.
Proof.
  unfold row_at, select_fetchrow. simpl. apply find_map_stable.
  intros r. by destruct (p r).
Qed.

Lemma holds_step (c : Call) self i s b db :
  holds i s b (db self) → holds i s b (step c db self).
Proof.
  intros (r & Hr & Hid & Hitem & Hret). destruct c as [self' v|self' v]; cbn [step].
  - destruct (decide (self = self')) as [->|Hne].
    + rewrite add_table. exists r. split_and!; try done.
      by apply row_at_insert_old.
    + rewrite add_other by done. by exists r.
  - destruct (decide (self = self')) as [->|Hne].
    + rewrite retire_table. unfold holds. rewrite row_at_update, Hr. simpl.
      destruct (item_is (str v) r); [|by exists r].
      exists (set_retired r). by split_and!.
    + rewrite retire_other by done. by exists r.
Qed.

Lemma holds_run (calls : list Call) self i s b db :
  holds i s b (db self) → holds i s b (run calls db self).
Proof.
  revert db. induction calls as [|c calls IH]; intros db H; [done|].
  rewrite run_cons. by apply IH, holds_step.
Qed.

Lemma holds_get self i s db :
  holds i s true (db self) →
  get self i db = Some (mkBlacklistItem i (PyStr s) true).
Proof.
  intros (r & Hr & Hid & Hitem & Hret). unfold get. fold (row_at i (db self)).
  rewrite Hr. simpl. unfold of_row. by rewrite Hid, Hitem, Hret.
Qed.

Lemma holds_add self v db :
  wf (db self) →
  holds (index (add self v db).1) (str v) false ((add self v db).2 self).
Proof.
  intros Hwf. rewrite add_table. simpl.
  exists (mkRow (next_id (db self)) (str v) false).
  split_and!; try done. by apply row_at_insert_new.
Qed.

Lemma holds_retire self v i b db :
  holds i (str v) b (db self) →
  holds i (str v) true ((retire self v db).2 self).
Proof.
  intros (r & Hr & Hid & Hitem & _). rewrite retire_table. unfold holds.
  rewrite row_at_update, Hr. simpl. unfold item_is at 1. rewrite bool_decide_eq_true_2 by done.
  exists (set_retired r). by split_and!.
Qed.

(** After [retire], the first row with that item is a retired one. *)
Lemma retire_get_by_value self v db :
  get_by_value self v (retire self v db).2 = None.
Proof.
  unfold get_by_value, select_fetchrow. rewrite retire_table. simpl.
  rewrite find_map_stable
    by (intros r; destruct (item_is (str v) r) eqn:E; exact E).
  destruct (List.find (item_is (str v)) (rows (db self))) as [r|] eqn:Hfind; [|done].
  simpl. apply List.find_some in Hfind as [_ ->]. done.
Qed.

Lemma holds_retire_result self v i b db :
  holds i (str v) b (db self) → is_Some (retire self v db).1.
Proof.
  intros (r & Hr & Hid & Hitem & _). unfold retire. simpl.
  destruct (List.find (item_is (str v)) (rows (db self))) as [r'|] eqn:Hfind;
    [by eexists|].
  exfalso. apply List.find_some in Hr as [Hin _].
  eapply List.find_none in Hfind; [|exact Hin].
  unfold item_is in Hfind. by rewrite bool_decide_eq_true_2 in Hfind.
Qed.

End denylist_registry.

Section denylist_claims.

Import AutobahnBlacklist.

Implicit Types (db : Schema) (t : Table) (self : Category) (v : PyVal).

(** Every call leaves the sequence where it was or moves it forward. *)
Lemma next_id_step (c : Call) self db :
  next_id (db self) ≤ next_id (step c db self).
Proof.
  destruct c as [self' v|self' v]; cbn [step].
  - destruct (decide (self = self')) as [->|Hne].
    + rewrite add_table. simpl. lia.
    + by rewrite add_other.
  - destruct (decide (self = self')) as [->|Hne].
    + by rewrite retire_table.
    + by rewrite retire_other.
Qed.

Lemma next_id_run (calls : list Call) self db :
  next_id (db self) ≤ next_id (run calls db self).
Proof.
  revert db. induction calls as [|c calls IH]; intros db; [done|].
  rewrite run_cons. etrans; [apply next_id_step | apply IH].
Qed.

(** The indices handed out along a history lie between the value of the
    sequence before and its value after, in increasing order. *)
Lemma assigned_bounds (calls : list Call) self db :
  Forall (λ i, next_id (db self) ≤ i < next_id (run calls db self))
         (assigned self calls db)
  ∧ StronglySorted Z.lt (assigned self calls db).
Proof.
  revert db. induction calls as [|c calls IH]; intros db.
  { split; constructor. }
  rewrite run_cons. destruct (IH (step c db)) as [Hb Hs].
  pose proof (next_id_step c self db) as Hstep.
  destruct c as [self' v|self' v]; cbn [assigned].
  - destruct (decide (self' = self)) as [->|Hne].
    + assert (next_id (step (CallAdd self v) db self) = next_id (db self) + 1)
        as Hnext by (cbn [step]; by rewrite add_table).
      pose proof (next_id_run calls self (step (CallAdd self v) db)) as Hrun.
      change (index (add self v db).1) with (next_id (db self)).
      split.
      * constructor; [lia|].
        eapply Forall_impl; [exact Hb|]. intros i Hi. cbn beta in Hi. lia.
      * constructor; [exact Hs|].
        eapply Forall_impl; [exact Hb|]. intros i Hi. cbn beta in Hi. lia.
    + split; [|exact Hs].
      eapply Forall_impl; [exact Hb|]. intros i Hi. cbn beta in Hi. lia.
  - split; [|exact Hs].
    eapply Forall_impl; [exact Hb|]. intros i Hi. cbn beta in Hi. lia.
Qed.

(** C2. In every category, for every entry made by [add], whatever
    happened before and between: once [retire] is called with the
    entry's value it returns an index, [get_by_value] with that value
    answers [None], [get] with the entry's index still answers the
    record, now with [retired = True], and it keeps doing so after any
    further calls, none of which removes a row. *)
Theorem retire_is_logical_deletion
    (before between after : list Call) self v :
  let db0 := run before empty_schema in
  let entry := (add self v db0).1 in
  let db2 := run between (add self v db0).2 in
  let db3 := (retire self v db2).2 in
  is_Some (retire self v db2).1
  ∧ get_by_value self v db3 = None
  ∧ get self (index entry) db3
    = Some (mkBlacklistItem (index entry) (PyStr (str v)) true)
  ∧ get self (index entry) (run after db3)
    = Some (mkBlacklistItem (index entry) (PyStr (str v)) true)
  ∧ length (rows (db3 self)) = length (rows (db2 self)).
Proof.
  intros db0 entry db2 db3.
  assert (holds (index entry) (str v) false (db2 self)) as Hstored.
  { apply holds_run, holds_add, wf_history. }
  assert (holds (index entry) (str v) true (db3 self)) as Hretired.
  { eapply holds_retire, Hstored. }
  split_and!.
  - eapply holds_retire_result, Hstored.
  - apply retire_get_by_value.
  - by apply holds_get.
  - by apply holds_get, holds_run.
  - unfold db3. rewrite retire_table. simpl. by rewrite length_map.
Qed.

(** C3. In every category the indices [add] hands out along any history
    of [add] and [retire] calls are strictly increasing, so none is used
    twice; and when a value is retired and added again, the new entry's
    index is greater than every index handed out before and than the id
    of every row of the table. *)
Theorem index_strictly_increasing (history : list Call) self v :
  let db := run history empty_schema in
  let readded := (add self v (retire self v db).2).1 in
  StronglySorted Z.lt (assigned self history empty_schema)
  ∧ NoDup (assigned self history empty_schema)
  ∧ Forall (λ i, i < index readded) (assigned self history empty_schema)
  ∧ Forall (λ r, id r < index readded) (rows ((retire self v db).2 self)).
Proof.
  intros db readded.
  destruct (assigned_bounds history self empty_schema) as [Hb Hs].
  assert (index readded = next_id (db self)) as Hidx.
  { unfold readded, add. simpl. by rewrite get_set_table_eq. }
  split_and!.
  - exact Hs.
  - clear Hb. induction Hs as [|i l _ IH Hi]; constructor; [|exact IH].
    intros Hin. rewrite Forall_forall in Hi. specialize (Hi i Hin). lia.
  - rewrite Hidx. eapply Forall_impl; [exact Hb|].
    intros i Hi. cbn beta in Hi. fold db in Hi. lia.
  - rewrite Hidx. rewrite retire_table.
    pose proof (wf_history history self) as Hwf.
    apply (wf_update (item_is (str v))) in Hwf. by destruct Hwf as [Hlt _].
Qed.

(** C10. [add], [get_by_value] and [retire] use the value they are given
    only through [str]: called with a value or with its string form they
    store the same row, find the same row and retire the same rows.  The
    row [add] stores holds the string form, so an entry added under one
    form is retired by a call with the other form, and every entry
    [get_by_value] returns carries a string. *)
Theorem store_coerces_to_string (history : list Call) self v :
  let db := run history empty_schema in
  let s := PyStr (str v) in
  (add self v db).2 self = (add self s db).2 self
  ∧ index (add self v db).1 = index (add self s db).1
  ∧ last (rows ((add self v db).2 self))
    = Some (mkRow (index (add self v db).1) (str v) false)
  ∧ get_by_value self v db = get_by_value self s db
  ∧ (retire self v db).1 = (retire self s db).1
  ∧ (retire self v db).2 self = (retire self s db).2 self
  ∧ get_by_value self s (add self v db).2 = get_by_value self v (add self s db).2
  ∧ get self (index (add self v db).1) (retire self s (add self v db).2).2
    = Some (mkBlacklistItem (index (add self v db).1) s true)
  ∧ get self (index (add self s db).1) (retire self v (add self s db).2).2
    = Some (mkBlacklistItem (index (add self s db).1) s true)
  ∧ ∀ e, get_by_value self v db = Some e → value e = s.
Proof.
  intros db s.
  assert (∀ w, str w = str v →
            get self (index (add self v db).1) (retire self w (add self v db).2).2
            = Some (mkBlacklistItem (index (add self v db).1) s true)) as Hcross.
  { intros w Hw. apply holds_get. rewrite <- Hw.
    eapply holds_retire. rewrite Hw. apply holds_add, wf_history. }
  split_and!; try reflexivity.
  - rewrite add_table. simpl. by rewrite last_snoc.
  - by apply Hcross.
  - by apply (Hcross v).
  - intros e. unfold get_by_value, select_fetchrow.
    destruct (List.find (item_is (str v)) (rows (db self))) as [r|] eqn:Hfind;
      [|done].
    destruct (retired r); [done|]. intros [= <-]. simpl.
    apply List.find_some in Hfind as [_ Hitem].
    unfold item_is in Hitem. apply bool_decide_eq_true_1 in Hitem.
    unfold s. by rewrite Hitem.
Qed.

(** C5 (what the code does). A value that was added and retired has no
    active entry, and yet [retire] called with it again returns the index
    of the retired row: the UPDATE does not look at [retired].  The
    command [del_] then lists the value as deleted, not as skipped. *)
Theorem retire_reretires_retired_entry :
  let db := run [CallAdd AutobahnFileBlacklist (PyStr "x");
                 CallRetire AutobahnFileBlacklist (PyStr "x")] empty_schema in
  get_by_value AutobahnFileBlacklist (PyStr "x") db = None
  ∧ get_all AutobahnFileBlacklist db = []
  ∧ (retire AutobahnFileBlacklist (PyStr "x") db).1 = Some 1
  ∧ ∀ resolve_invite_link,
      (autobahn_mgr.del_ resolve_invite_link "file" ["x"] (autobahn_mgr.start db)).2
      = Ok (autobahn_mgr.Report [] [] [] [PyStr "x"] EmptyString).
Proof. split_and!; try reflexivity. Qed.

End denylist_claims.

(** * The ban list import *)

Section import_claims.

Import banlist.

Lemma rose_csv_lines_length (csv_file : list (list string)) bans :
  helpers.rose_csv_lines csv_file = Ok bans → length bans = length csv_file.
Proof.
  revert bans. induction csv_file as [|line rest IH]; intros bans; simpl.
  { by intros [= <-]. }
  destruct (head line), (last line); try discriminate.
  destruct (helpers.rose_csv_lines rest) as [bans'|]; [|discriminate].
  intros [= <-]. simpl. f_equal. by apply IH.
Qed.

(** One id that is no integer makes the conversion of the batch raise. *)
Lemma records_ValueError now (bans : list BanList.Ban) b :
  b ∈ bans → PyInt.int (BanList.ban_id b) = None →
  BanList.records now bans = Raise ValueError.
Proof.
  intros Hin Hb. induction Hin as [b bans|b b' bans Hin IH]; simpl.
  - by rewrite Hb.
  - destruct (PyInt.int (BanList.ban_id b')); [|done]. by rewrite IH.
Qed.

(** What [import_] comes to once the reply is a CSV file that parses. *)
Lemma import_parsed client now msg batch w :
  is_reply msg = true → reply_ext msg = ".csv" →
  helpers.rose_csv_to_dict (reply_csv msg) = Ok batch →
  import_ client now msg w
  = (match batch with
     | [] => ret tt
     | _ :: _ =>
         upsert_multiple batch now ;;
         match sw client with
         | Some permission =>
             if sufficient permission
             then for_ (by_reason batch)
                       (λ '(reason, uids), push_slices client reason (me client) uids)
             else ret tt
         | None => ret tt
         end
     end ;;
     ret (Some (ImportResult (length batch))))%py w.
Proof.
  intros Hreply Hext Hparse. unfold import_.
  rewrite Hreply, Hext. simpl. unfold bind at 1, lift. by rewrite Hparse.
Qed.

(** C4 (the claim fails). On the CSV of the scenario the batch handed
    to [upsert_multiple] holds id 111 twice; the upsert refuses it, the
    import raises, and neither 111 nor 222 is in the ban list. *)
Lemma import_scenario_is_not_deduplicated :
  let msg := mkMessage true ".csv"
               [["id"; "reason"]; ["111"; "spam"]; ["111"; "spam2"];
                ["222"; "flood"]] in
  let run := import_ (mkClient None 0 (λ _ _, false)) 0 msg (mkWorld ∅ [] []) in
  upsert_multiple_calls run.1
  = [[BanList.mkBan "111" "spam"; BanList.mkBan "111" "spam2";
      BanList.mkBan "222" "flood"]]
  ∧ run.2 = Raise CardinalityViolationError
  ∧ BanList.get_user 111 (db_banlist run.1) = None
  ∧ BanList.get_user 222 (db_banlist run.1) = None.
Proof. vm_compute. done. Qed.

(** C4 (amended). The import does not deduplicate: the three rows of
    the scenario reach [upsert_multiple] as one batch, in the order of
    the file; and the count an import reports when it completes is the
    number of rows read from the file. *)
Theorem import_hands_all_rows_to_upsert client now w :
  let csv := [["id"; "reason"]; ["111"; "spam"]; ["111"; "spam2"];
              ["222"; "flood"]] in
  let batch := [BanList.mkBan "111" "spam"; BanList.mkBan "111" "spam2";
                BanList.mkBan "222" "flood"] in
  helpers.rose_csv_to_dict csv = Ok batch
  ∧ upsert_multiple_calls (import_ client now (mkMessage true ".csv" csv) w).1
    = upsert_multiple_calls w ++ [batch]
  ∧ ∀ client' now' msg' w' n,
      (import_ client' now' msg' w').2 = Ok (Some (ImportResult n)) →
      ∃ parsed, helpers.rose_csv_to_dict (reply_csv msg') = Ok parsed
                ∧ n = length parsed
                ∧ n = length (tail (reply_csv msg')).
Proof.
  intros csv batch. split_and!.
  - reflexivity.
  - rewrite (import_parsed _ _ _ batch) by reflexivity.
    unfold batch, bind, upsert_multiple, BanList.upsert_multiple. simpl.
    reflexivity.
  - intros client' now' msg' w' n. unfold import_.
    destruct (is_reply msg'); simpl; [|discriminate].
    case_bool_decide; simpl; [|discriminate].
    unfold bind at 1, lift.
    destruct (helpers.rose_csv_to_dict (reply_csv msg')) as [parsed|] eqn:Hparse;
      [|discriminate].
    intros Hdoc. exists parsed. split; [done|].
    assert (n = length parsed) as ->.
    { unfold bind at 1 in Hdoc.
      match type of Hdoc with
      | context [match ?m with (_, _) => _ end] => destruct m as [w'' [[]|e]]
      end; simpl in Hdoc; congruence. }
    split; [done|]. by apply rose_csv_lines_length.
Qed.

Lemma import_hands_all_rows_to_upsert_witness :
  ∃ parsed,
    helpers.rose_csv_to_dict [["id"; "reason"]; ["111"; "spam"]] = Ok parsed
    ∧ 1%nat = length parsed
    ∧ 1%nat = length (tail [["id"; "reason"]; ["111"; "spam"]]).
Proof.
  destruct (import_hands_all_rows_to_upsert (mkClient None 0 (λ _ _, false)) 0
              (mkWorld ∅ [] [])) as (_ & _ & H).
  apply (H (mkClient None 0 (λ _ _, false)) 0
           (mkMessage true ".csv" [["id"; "reason"]; ["111"; "spam"]])
           (mkWorld ∅ [] [])).
  vm_compute. reflexivity.
Defined.

(** C6 (the claim fails). A file with the rows (abc, spam) and
    (222, flood): the import raises [ValueError], and 222 is not in the
    ban list. *)
Lemma import_malformed_row_aborts_batch :
  let msg := mkMessage true ".csv"
               [["id"; "reason"]; ["abc"; "spam"]; ["222"; "flood"]] in
  let run := import_ (mkClient None 0 (λ _ _, false)) 0 msg (mkWorld ∅ [] []) in
  upsert_multiple_calls run.1
  = [[BanList.mkBan "abc" "spam"; BanList.mkBan "222" "flood"]]
  ∧ run.2 = Raise ValueError
  ∧ BanList.get_user 222 (db_banlist run.1) = None.
Proof. vm_compute. done. Qed.

(** C6 (amended). A row whose id is no integer is not skipped: every row
    of the file stays in the batch, [upsert_multiple] raises [ValueError]
    on the batch before anything reaches the store, and the import ends
    there: the ban list is as it was, the well-formed rows of the batch
    are not written, and nothing is pushed to the authority. *)
Theorem malformed_row_rejects_batch client now msg w batch b :
  is_reply msg = true → reply_ext msg = ".csv" →
  helpers.rose_csv_to_dict (reply_csv msg) = Ok batch →
  b ∈ batch → PyInt.int (BanList.ban_id b) = None →
  length batch = length (tail (reply_csv msg))
  ∧ (import_ client now msg w).2 = Raise ValueError
  ∧ upsert_multiple_calls (import_ client now msg w).1
    = upsert_multiple_calls w ++ [batch]
  ∧ db_banlist (import_ client now msg w).1 = db_banlist w
  ∧ add_bans_calls (import_ client now msg w).1 = add_bans_calls w.
Proof.
  intros Hreply Hext Hparse Hin Hb.
  split; [by apply rose_csv_lines_length|].
  rewrite (import_parsed _ _ _ batch) by done.
  destruct batch as [|b0 batch']; [by apply elem_of_nil in Hin|].
  unfold bind at 1. unfold bind at 1.
  unfold upsert_multiple, BanList.upsert_multiple.
  rewrite (records_ValueError now _ b Hin Hb). done.
Qed.

Lemma malformed_row_rejects_batch_witness :
  let msg := mkMessage true ".csv"
               [["id"; "reason"]; ["abc"; "spam"]; ["222"; "flood"]] in
  let client := mkClient (Some Admin) 1 (λ _ _, false) in
  let w := mkWorld {[ 5 := BanList.mkRow "old" 0 None ]} [] [] in
  length [BanList.mkBan "abc" "spam"; BanList.mkBan "222" "flood"]
  = length (tail (reply_csv msg))
  ∧ (import_ client 7 msg w).2 = Raise ValueError
  ∧ upsert_multiple_calls (import_ client 7 msg w).1
    = upsert_multiple_calls w
      ++ [[BanList.mkBan "abc" "spam"; BanList.mkBan "222" "flood"]]
  ∧ db_banlist (import_ client 7 msg w).1 = db_banlist w
  ∧ add_bans_calls (import_ client 7 msg w).1 = add_bans_calls w.
Proof.
  intros msg client w.
  apply (malformed_row_rejects_batch client 7 msg w
           [BanList.mkBan "abc" "spam"; BanList.mkBan "222" "flood"]
           (BanList.mkBan "abc" "spam")).
  - reflexivity.
  - reflexivity.
  - reflexivity.
  - apply list_elem_of_here.
  - reflexivity.
Defined.

(** ** Pushing to the authority *)

Section push.

Context (client : Client) (admin_id : Z).

Lemma sw_bans_Ok reason (uids : list string) :
  Forall parses uids →
  sw_bans reason admin_id uids = Ok (omap (sw_ban reason admin_id) uids)
  ∧ length (omap (sw_ban reason admin_id) uids) = length uids
  ∧ Forall (λ b, sw_reason b = reason ∧ sw_admin b = admin_id)
           (omap (sw_ban reason admin_id) uids).
Proof.
  induction 1 as [|uid uids [i Hi] _ (IH1 & IH2 & IH3)]; [done|].
  assert (sw_ban reason admin_id uid = Some (mkSwBan i reason admin_id)) as Hb.
  { unfold sw_ban. by rewrite Hi. }
  cbn [sw_bans omap list_omap]. rewrite Hb, IH1.
  split_and!; [done | simpl; by rewrite IH2 | by constructor].
Qed.

Lemma bind_assoc {S A B C} (m : M S A) (k : A → M S B) (k' : B → M S C) s :
  bind (bind m k) k' s = bind m (λ x, bind (k x) k') s.
Proof. unfold bind. by destruct (m s) as [s' [a|e]]. Qed.

Lemma push_outcome_ret w : push_outcome client admin_id w [] (ret tt w).
Proof.
  split_and!; try done. exists []. split_and!; try done. by rewrite app_nil_r.
Qed.

Lemma push_outcome_bind (m1 m2 : M World unit) w e1 e2 :
  push_outcome client admin_id w e1 (m1 w) →
  (∀ w', push_outcome client admin_id w' e2 (m2 w')) →
  push_outcome client admin_id w (e1 ++ e2) ((m1 ;; m2)%py w).
Proof.
  intros (Hdb & Hup & p1 & Hcalls & Hok & Hres & Hall) H2. unfold bind.
  destruct (m1 w) as [w1 [[]|e]] eqn:Hm1; simpl in *.
  - destruct (H2 w1) as (Hdb2 & Hup2 & p2 & Hcalls2 & Hok2 & Hres2 & Hall2).
    split_and!; [congruence | congruence |].
    exists (p1 ++ p2). split_and!.
    + rewrite Hcalls2, Hcalls. by rewrite app_assoc.
    + by apply Forall_app.
    + destruct (m2 w1).2 as [[]|e2'].
      * rewrite concat_app. congruence.
      * destruct Hres2 as (-> & earlier & slice & -> & Hraise). split; [done|].
        exists (p1 ++ earlier), slice. split; [by rewrite app_assoc|].
        rewrite app_assoc. by rewrite <- Hcalls.
    + intros Hnever. by apply Hall2.
  - split_and!; [done | done |]. exists p1. split_and!; [done | done | done |].
    intros Hnever. by specialize (Hall Hnever).
Qed.

Lemma push_outcome_add_bans reason (uids : list string) w :
  Forall parses uids → (0 < length uids ≤ SWAPI_SLICE_LENGTH)%nat →
  push_outcome client admin_id w (omap (sw_ban reason admin_id) uids)
    ((slice <- lift (sw_bans reason admin_id uids) ;; add_bans client slice)%py w).
Proof.
  intros Hparse Hlen. destruct (sw_bans_Ok reason uids Hparse) as (Hok & Hlen' & Hall).
  unfold bind, lift. rewrite Hok. unfold add_bans.
  set (slice := omap (sw_ban reason admin_id) uids) in *.
  assert (slice_ok admin_id slice) as Hslice.
  { split; [lia|]. by exists reason. }
  destruct (add_bans_raises client (add_bans_calls w) slice) eqn:Hraise; simpl.
  - split_and!; try done. exists [slice]. split_and!; try done.
    + by constructor.
    + split; [done|]. exists [], slice. split; [done|]. by rewrite app_nil_r.
    + intros Hnever. by rewrite Hnever in Hraise.
  - split_and!; try done. exists [slice]. split_and!; try done.
    + by constructor.
    + simpl. by rewrite app_nil_r.
Qed.

Lemma push_slices_outcome reason (n : nat) (uids : list string) w :
  (length uids ≤ n)%nat → Forall parses uids →
  push_outcome client admin_id w (omap (sw_ban reason admin_id) uids)
    (push_slices client reason admin_id uids w).
Proof.
  revert uids w. induction n as [|n IH]; intros uids w Hn Hparse.
  { destruct uids; [|simpl in Hn; lia]. simp push_slices. apply push_outcome_ret. }
  destruct uids as [|uid rest]; [simp push_slices; apply push_outcome_ret|].
  simp push_slices.
  rewrite <- (take_drop SWAPI_SLICE_LENGTH (uid :: rest)) at 1.
  rewrite omap_app.
  pose proof (push_outcome_bind
    (slice <- lift (sw_bans reason admin_id (take SWAPI_SLICE_LENGTH (uid :: rest))) ;;
     add_bans client slice)%py
    (push_slices client reason admin_id (drop SWAPI_SLICE_LENGTH (uid :: rest)))
    w (omap (sw_ban reason admin_id) (take SWAPI_SLICE_LENGTH (uid :: rest)))
      (omap (sw_ban reason admin_id) (drop SWAPI_SLICE_LENGTH (uid :: rest)))) as Hbind.
  rewrite bind_assoc in Hbind. apply Hbind.
  - apply push_outcome_add_bans.
    + by apply Forall_take.
    + rewrite length_take. unfold SWAPI_SLICE_LENGTH. cbn [length]. lia.
  - intros w'. apply IH.
    + rewrite length_drop. unfold SWAPI_SLICE_LENGTH. cbn [length] in *. lia.
    + by apply Forall_drop.
Qed.
End push.

Section import_push.
Context (client : Client).

Lemma pairs_of_cons reason uids (bans : list (string * list string)) :
  pairs_of ((reason, uids) :: bans)
  = ((λ uid, (reason, uid)) <$> uids) ++ pairs_of bans.
Proof. reflexivity. Qed.

Lemma omap_group admin_id reason (uids : list string) :
  omap (λ '(reason, uid), sw_ban reason admin_id uid)
       ((λ uid, (reason, uid)) <$> uids)
  = omap (sw_ban reason admin_id) uids.
Proof.
  induction uids as [|uid uids IH]; [done|].
  cbn [fmap list_fmap omap list_omap]. by rewrite IH.
Qed.

Lemma for_push_outcome (bans : list (string * list string)) w :
  Forall (λ kv, parses kv.2) (pairs_of bans) →
  push_outcome client (me client) w (group_bans (me client) bans)
    (for_ bans (λ '(reason, uids), push_slices client reason (me client) uids) w).
Proof.
  revert w. induction bans as [|[reason uids] bans IH]; intros w Hparse.
  { apply push_outcome_ret. }
  rewrite pairs_of_cons in Hparse. apply Forall_app in Hparse as [Hhere Hrest].
  unfold group_bans. rewrite pairs_of_cons, omap_app, omap_group.
  cbn [for_]. apply push_outcome_bind.
  - apply (push_slices_outcome _ _ _ (length uids)); [done|].
    rewrite Forall_fmap in Hhere. exact Hhere.
  - intros w'. by apply IH.
Qed.

Lemma pairs_of_dict_append reason uid (bans : list (string * list string)) :
  pairs_of (dict_append reason uid bans) ≡ₚ pairs_of bans ++ [(reason, uid)].
Proof.
  induction bans as [|[k uids] bans IH]; [done|].
  cbn [dict_append]. destruct (decide (k = reason)) as [->|Hne].
  - rewrite !pairs_of_cons, fmap_app. simpl.
    rewrite <- !app_assoc. f_equiv. apply Permutation_app_comm.
  - rewrite !pairs_of_cons, IH. by rewrite app_assoc.
Qed.

Lemma pairs_of_by_reason (batch : list BanList.Ban) :
  pairs_of (by_reason batch) ≡ₚ pair_of <$> batch.
Proof.
  unfold by_reason.
  cut (∀ bans,
         pairs_of (foldl (λ bans b, dict_append (BanList.ban_reason b)
                                                (BanList.ban_id b) bans)
                         bans batch)
         ≡ₚ pairs_of bans ++ (pair_of <$> batch)).
  { intros H. apply (H []). }
  induction batch as [|b batch IH]; intros bans; simpl.
  - by rewrite app_nil_r.
  - rewrite IH, pairs_of_dict_append. by rewrite <- app_assoc.
Qed.

Lemma records_parses now (batch : list BanList.Ban) rs :
  BanList.records now batch = Ok rs →
  Forall (λ b, parses (BanList.ban_id b)) batch.
Proof.
  revert rs. induction batch as [|b batch IH]; intros rs; simpl; [constructor|].
  destruct (PyInt.int (BanList.ban_id b)) as [i|] eqn:Hi; [|done].
  destruct (BanList.records now batch) as [rs'|]; [|done].
  intros _. constructor; [by eexists | by eapply IH].
Qed.

Lemma upsert_Ok_parses (batch : list BanList.Ban) now t :
  (BanList.upsert_multiple batch now t).2 = Ok tt →
  Forall (λ b, parses (BanList.ban_id b)) batch.
Proof.
  unfold BanList.upsert_multiple.
  destruct (BanList.records now batch) as [rs|] eqn:Hrs; [|done].
  intros _. by eapply records_parses.
Qed.

Lemma group_bans_by_reason admin_id (batch : list BanList.Ban) :
  group_bans admin_id (by_reason batch) ≡ₚ imported admin_id batch.
Proof.
  unfold group_bans, imported. rewrite pairs_of_by_reason.
  induction batch as [|b batch IH]; [done|].
  cbn [fmap list_fmap omap list_omap pair_of].
  destruct (sw_ban _ _ _); by rewrite IH.
Qed.

(** C8 (amended). With an authority configured and an importer of
    sufficient permission, once the batch is upserted the import pushes
    it by reason, in successive slices of between 1 and 50 bans that
    share one reason.  When the import returns, the slices together are
    the imported records, each id once.  A failing push is not caught:
    the import raises what the push raised, the failing push is the last
    one made, and the upsert stays in the ban list. *)
Theorem import_pushes_in_slices now msg w batch permission :
  is_reply msg = true → reply_ext msg = ".csv" →
  helpers.rose_csv_to_dict (reply_csv msg) = Ok batch → batch ≠ [] →
  sw client = Some permission → sufficient permission = true →
  (BanList.upsert_multiple batch now (db_banlist w)).2 = Ok tt →
  let run := import_ client now msg w in
  db_banlist run.1 = (BanList.upsert_multiple batch now (db_banlist w)).1
  ∧ ∃ pushed,
      add_bans_calls run.1 = add_bans_calls w ++ pushed
      ∧ Forall (slice_ok (me client)) pushed
      ∧ match run.2 with
        | Ok doc =>
            doc = Some (ImportResult (length batch))
            ∧ concat pushed ≡ₚ imported (me client) batch
            ∧ length (concat pushed) = length batch
        | Raise e =>
            e = SpamWatchError
            ∧ ∃ earlier slice,
                pushed = earlier ++ [slice]
                ∧ add_bans_raises client (add_bans_calls w ++ earlier) slice = true
        end
      ∧ ((∀ calls slice, add_bans_raises client calls slice = false) →
         run.2 = Ok (Some (ImportResult (length batch)))).
Proof.
  intros Hreply Hext Hparse Hne Hsw Hperm Hupsert run.
  pose proof (upsert_Ok_parses batch now _ Hupsert) as Hids.
  destruct (BanList.upsert_multiple batch now (db_banlist w)) as [t r] eqn:Hup.
  cbn [fst snd] in *. subst r.
  set (w1 := mkWorld t (upsert_multiple_calls w ++ [batch]) (add_bans_calls w)).
  set (pushing := for_ (by_reason batch)
                    (λ '(reason, uids), push_slices client reason (me client) uids)).
  assert (run = match pushing w1 with
                | (w2, Ok _) => (w2, Ok (Some (ImportResult (length batch))))
                | (w2, Raise e) => (w2, Raise e)
                end) as ->.
  { unfold run. rewrite (import_parsed _ _ _ batch) by done.
    destruct batch as [|b0 batch']; [done|].
    rewrite Hsw, Hperm. unfold bind, upsert_multiple. rewrite Hup.
    fold pushing. fold w1. by destruct (pushing w1) as [w2 [[]|e]]. }
  destruct (for_push_outcome (by_reason batch) w1)
    as (Hdb & _ & pushed & Hcalls & Hok & Hres & Hall).
  { rewrite pairs_of_by_reason, Forall_fmap. exact Hids. }
  fold pushing in Hdb, Hcalls, Hres, Hall.
  destruct (pushing w1) as [w2 [[]|e]]; cbn [fst snd] in *.
  - split; [done|]. exists pushed. split_and!; try done.
    + rewrite Hres. apply group_bans_by_reason.
    + rewrite Hres, group_bans_by_reason. unfold imported.
      clear -Hids. induction Hids as [|b l [i Hi] _ IH]; [done|].
      cbn [omap list_omap]. unfold sw_ban at 1. rewrite Hi. simpl. by rewrite IH.
  - split; [done|]. exists pushed. split_and!; [done | done | apply Hres | apply Hres |].
    intros Hnever. by specialize (Hall Hnever).
Qed.
End import_push.

(** Fifty-one ids under one reason go out as a slice of fifty and a
    slice of one. *)
Example push_slices_51 :
  let client := mkClient (Some Admin) 9 (λ _ _, false) in
  let uids := (λ n, pretty (Z.of_nat n)) <$> seq 100 51 in
  length <$> add_bans_calls
               (push_slices client "spam" 9 uids (mkWorld ∅ [] [])).1
  = [50; 1]%nat.
Proof. vm_compute. reflexivity. Qed.

(** C8 (the claim fails). Two rows with different reasons, and an
    authority that refuses the first push: the import raises, the slice
    for the second reason is never pushed, and both rows are in the ban
    list. *)
Lemma failed_push_stops_import :
  let msg := mkMessage true ".csv"
               [["id"; "reason"]; ["111"; "spam"]; ["222"; "flood"]] in
  let client := mkClient (Some Admin) 9
                  (λ calls _, match calls with [] => true | _ => false end) in
  let run := import_ client 5 msg (mkWorld ∅ [] []) in
  run.2 = Raise SpamWatchError
  ∧ add_bans_calls run.1 = [[mkSwBan 111 "spam" 9]]
  ∧ BanList.get_user 111 (db_banlist run.1) = Some (BanList.mkBannedUser 111 "spam")
  ∧ BanList.get_user 222 (db_banlist run.1) = Some (BanList.mkBannedUser 222 "flood").
Proof. vm_compute. done. Qed.

Lemma import_pushes_in_slices_witness :
  let msg := mkMessage true ".csv"
               [["id"; "reason"]; ["111"; "spam"]; ["222"; "flood"];
                ["333"; "spam"]] in
  let batch := [BanList.mkBan "111" "spam"; BanList.mkBan "222" "flood";
                BanList.mkBan "333" "spam"] in
  let client := mkClient (Some Admin) 9 (λ _ _, false) in
  let w := mkWorld ∅ [] [] in
  let run := import_ client 5 msg w in
  db_banlist run.1 = (BanList.upsert_multiple batch 5 (db_banlist w)).1
  ∧ ∃ pushed,
      add_bans_calls run.1 = add_bans_calls w ++ pushed
      ∧ Forall (slice_ok (me client)) pushed
      ∧ match run.2 with
        | Ok doc =>
            doc = Some (ImportResult (length batch))
            ∧ concat pushed ≡ₚ imported (me client) batch
            ∧ length (concat pushed) = length batch
        | Raise e =>
            e = SpamWatchError
            ∧ ∃ earlier slice,
                pushed = earlier ++ [slice]
                ∧ add_bans_raises client (add_bans_calls w ++ earlier) slice = true
        end
      ∧ ((∀ calls slice, add_bans_raises client calls slice = false) →
         run.2 = Ok (Some (ImportResult (length batch)))).
Proof.
  intros msg batch client w.
  apply (import_pushes_in_slices client 5 msg w batch Admin).
  - reflexivity.
  - reflexivity.
  - reflexivity.
  - discriminate.
  - reflexivity.
  - reflexivity.
  - vm_compute. reflexivity.
Defined.

End import_claims.

(** * The enforcement engine *)

Section enforcement_claims.

Import grenzschutz.

(** Case analysis on what the collaborators answer. *)
Ltac handler_cases :=
  repeat match goal with
         | |- context [get_entity ?env ?uid] => destruct (get_entity env uid)
         | |- context [BanList.get_user ?uid ?t] => destruct (BanList.get_user uid t)
         | |- context [ban_invalid ?env ?uid] => destruct (ban_invalid env uid) eqn:?
         | |- context [bool_decide ?P] => destruct (bool_decide P)
         end; simpl.

(** Membership in a list that is written out. *)
Ltac in_calls :=
  repeat first [apply list_elem_of_here | apply list_elem_of_further].

Ltac not_in_calls H :=
  repeat (apply elem_of_cons in H as [H|H]; [discriminate H|]);
  by apply elem_of_nil in H.

Ltac calls_iff :=
  split; intros H; first [done | not_in_calls H | in_calls].

(** Past the authority check the handler asks for the tags next. *)
Lemma may_ban_Tags_create env event :
  is_private event = false → shape_ok event = true →
  may_ban (get_chat env) = true →
  Tags_create ∈ (grenzschutz env event []).1.
Proof.
  intros Hpriv Hshape Hmay.
  unfold grenzschutz. rewrite Hpriv, Hshape. cbn [negb].
  unfold bind at 1. cbn [call modify app]. rewrite Hmay. cbn [negb].
  unfold bind at 1. cbn [call modify app].
  destruct (opted_out env); [cbn; in_calls|].
  destruct (subject event) as [uid|]; [|cbn; in_calls].
  unfold bind, try_except, ban, call, modify, ret, raise. simpl.
  handler_cases; in_calls.
Qed.

Lemma may_ban_iff (chat : Channel) :
  may_ban chat = true ↔
    (∃ rights, admin_rights chat = Some rights ∧ ban_users rights = true)
    ∨ (creator chat = true ∧ admin_rights chat = None).
Proof.
  destruct chat as [c [[b]|]]; unfold may_ban; simpl.
  - rewrite andb_false_r. split.
    + destruct b; [|done]. intros _. left. by eexists.
    + intros [(rights & [= <-] & Hb)|[_ [=]]]. simpl in Hb. by rewrite Hb.
  - rewrite andb_true_r. split.
    + destruct c; [|done]. intros _. by right.
    + intros [(rights & [=] & _)|[-> _]]. done.
Qed.

(** C7 (the claim fails). The acting account is the creator of the chat
    and its admin rights lack [ban_users]: the handler returns after
    [get_chat], although the author of the message is banned and no
    admin. *)
Lemma creator_without_ban_right_is_ignored :
  let env := mkEnv (mkChannel true (Some (mkChatAdminRights false))) ∅
                   (λ _, Some (mkUser "u"))
                   {[ 7 := BanList.mkRow "spam" 0 None ]} [] (λ _, false) in
  let event := NewMessage_Event false (Some 7) 100 in
  creator (get_chat env) = true
  ∧ (grenzschutz env event []).1 = [event_get_chat]
  ∧ Tags_create ∉ (grenzschutz env event []).1.
Proof.
  split_and!; [reflexivity | reflexivity |].
  intros H. vm_compute in H. not_in_calls H.
Qed.

(** C7 (amended). An event that is not private and has the right shape
    gets past the authority check exactly when the acting account holds
    admin rights that include [ban_users], or is the creator of the chat
    and holds no admin rights; otherwise the handler returns after
    [get_chat] and bans nobody. *)
Theorem authority_check env event :
  is_private event = false → shape_ok event = true →
  let calls := (grenzschutz env event []).1 in
  let chat := get_chat env in
  (Tags_create ∈ calls ↔
     (∃ rights, admin_rights chat = Some rights ∧ ban_users rights = true)
     ∨ (creator chat = true ∧ admin_rights chat = None))
  ∧ (Tags_create ∉ calls →
     calls = [event_get_chat] ∧ ban_calls calls = []
     ∧ (grenzschutz env event []).2 = Ok tt).
Proof.
  intros Hpriv Hshape calls chat. subst calls chat.
  rewrite <- may_ban_iff.
  destruct (may_ban (get_chat env)) eqn:Hmay.
  - pose proof (may_ban_Tags_create env event Hpriv Hshape Hmay) as Hin.
    split; [done|]. by intros Hnot.
  - unfold grenzschutz. rewrite Hpriv, Hshape. cbn [negb].
    unfold bind at 1. cbn [call modify app]. rewrite Hmay. cbn.
    split; [|done]. split; [|done]. intros H. not_in_calls H.
Qed.

Lemma authority_check_witness :
  let env := mkEnv (mkChannel false None) ∅ (λ _, Some (mkUser "u"))
                   {[ 7 := BanList.mkRow "spam" 0 None ]} [] (λ _, false) in
  let event := NewMessage_Event false (Some 7) 100 in
  (grenzschutz env event []).1 = [event_get_chat]
  ∧ ban_calls (grenzschutz env event []).1 = []
  ∧ (grenzschutz env event []).2 = Ok tt.
Proof.
  intros env event.
  destruct (authority_check env event) as [_ H]; [reflexivity | reflexivity |].
  apply H. intros Hin.
  apply elem_of_cons in Hin as [Hin|Hin]; [discriminate Hin|].
  by apply elem_of_nil in Hin.
Defined.

(** C1 (the claim fails). The author of the message is banned and no
    admin, and the platform refuses the ban with [UserIdInvalidError]:
    the ban was called once and the message is not deleted. *)
Lemma failed_ban_leaves_message :
  let env := mkEnv (mkChannel true None) ∅ (λ _, Some (mkUser "u"))
                   {[ 7 := BanList.mkRow "spam" 0 None ]} [] (λ _, true) in
  let event := NewMessage_Event false (Some 7) 100 in
  is_private event = false ∧ shape_ok event = true
  ∧ may_ban (get_chat env) = true ∧ opted_out env = false
  ∧ BanList.get_user 7 (db_banlist env) = Some (BanList.mkBannedUser 7 "spam")
  ∧ (7 ∉ admins env)
  ∧ ban_calls (grenzschutz env event []).1 = [client_ban 7]
  ∧ event_delete ∉ (grenzschutz env event []).1.
Proof.
  split_and!; try reflexivity.
  - apply not_elem_of_nil.
  - intros H. vm_compute in H. not_in_calls H.
Qed.

(** C1 (amended). For an event that passes the private-chat, shape,
    authority and opt-out checks and names a subject: when the subject
    is not in the ban list, [client.ban] is not called; when the subject
    is in the ban list and among the admins of the chat, [client.ban] is
    not called; when the subject is in the ban list and not among the
    admins, [client.ban] is called exactly once, for the subject, and the
    triggering message is deleted exactly when that call does not fail
    with [UserIdInvalidError]. *)
Theorem banned_subject_is_banned_once env event uid :
  is_private event = false → shape_ok event = true →
  may_ban (get_chat env) = true → opted_out env = false →
  subject event = Some uid →
  let calls := (grenzschutz env event []).1 in
  let banned := BanList.get_user uid (db_banlist env) in
  (banned = None → ban_calls calls = [])
  ∧ (is_Some banned → uid ∈ admins env → ban_calls calls = [])
  ∧ (is_Some banned → uid ∉ admins env →
     ban_calls calls = [client_ban uid]
     ∧ (event_delete ∈ calls ↔ ban_invalid env uid = false)).
Proof.
  intros Hpriv Hshape Hmay Hopt Hsubj calls banned. subst calls banned.
  unfold grenzschutz. rewrite Hpriv, Hshape. cbn [negb].
  unfold bind at 1. cbn [call modify app]. rewrite Hmay. cbn [negb].
  unfold bind at 1. cbn [call modify app]. rewrite Hopt, Hsubj.
  unfold bind, try_except, ban, call, modify, ret, raise. simpl.
  split_and!.
  - intros ->. by handler_cases.
  - intros [result ->] Hadmin.
    rewrite bool_decide_eq_false_2 by (by intros ?).
    by handler_cases.
  - intros [result ->] Hadmin. rewrite bool_decide_eq_true_2 by done.
    handler_cases; (split; [done|]); calls_iff.
Qed.

Lemma banned_subject_is_banned_once_witness :
  let env := mkEnv (mkChannel true None) ∅ (λ _, Some (mkUser "u"))
                   {[ 7 := BanList.mkRow "spam" 0 None ]} [1] (λ _, false) in
  let event := ChatAction_Event false false false
                 (Some MessageActionChatJoinedByLink) (Some 7) 100 in
  ban_calls (grenzschutz env event []).1 = [client_ban 7]
  ∧ (event_delete ∈ (grenzschutz env event []).1 ↔ ban_invalid env 7 = false).
Proof.
  intros env event.
  destruct (banned_subject_is_banned_once env event 7) as (_ & _ & H);
    [reflexivity | reflexivity | reflexivity | reflexivity | reflexivity |].
  apply H.
  - by eexists.
  - intros Hin. apply list_elem_of_singleton in Hin. discriminate Hin.
Defined.

End enforcement_claims.

(** * The command [add] on a file *)

Section add_claims.

Import autobahn_mgr.

Variable resolve_channel : string → Resolved.
Variable resolve_url : string → string.
Variable TELEGRAM_DOMAINS : list string.
Variable hash_file : list ascii → string.
Variable hash_photo : list ascii → string.

(** C9 (what the code does). [add file] without items, in reply to a
    file: after the download the command reads the loop variable [item],
    which was never assigned, and raises; nothing is added to the
    blacklist and no report is made, whatever the blacklist holds.  The
    same command for a photo ([add mhash]) on an empty blacklist adds
    the hash and lists it as added. *)
Theorem add_file_reply_raises db file photo :
  let msg := mkMessage true (Some file) photo in
  let run := add resolve_channel resolve_url TELEGRAM_DOMAINS hash_file
                 hash_photo msg "file" [] (start db) in
  run.2 = Raise UnboundLocalError
  ∧ msg_calls run.1
    = [msg_edit "Downloading file, this may take a while."; download_media;
       msg_delete]
  ∧ added_items run.1 = [] ∧ existing_items run.1 = []
  ∧ skipped_items run.1 = []
  ∧ (∀ c, blacklists run.1 c = db c)
  ∧ added_items
      (add resolve_channel resolve_url TELEGRAM_DOMAINS hash_file hash_photo
           (mkMessage true None (Some file)) "mhash" []
           (start AutobahnBlacklist.empty_schema)).1
    = [(1, PyStr (hash_photo file))].
Proof.
  split_and!; try reflexivity.
  unfold add. simpl. unfold bind, add_photo. simpl.
  unfold bind, call, modify, blacklist_get_by_value, gets, blacklist_add,
    on_blacklists, set_warn_message, added_items_append, ret. simpl.
  by case_bool_decide.
Qed.

End add_claims.

(** * Further properties of the code *)

Section denylist_extras.

Import AutobahnBlacklist.

Implicit Types (db : Schema) (t : Table) (self : Category) (v : PyVal).

Lemma find_item_None (s : string) (l : list Row) :
  Forall (λ r, item r ≠ s) l → List.find (item_is s) l = None.
Proof.
  induction 1 as [|r l Hr _ IH]; simpl; [done|].
  unfold item_is at 1. by rewrite bool_decide_eq_false_2.
Qed.

Lemma get_by_value_fresh self v db :
  Forall (λ r, item r ≠ str v) (rows (db self)) →
  get_by_value self v db = None
  ∧ get_by_value self v (add self v db).2
    = Some (mkBlacklistItem (index (add self v db).1) (PyStr (str v)) false).
Proof.
  intros Hfresh. pose proof (find_item_None _ _ Hfresh) as Hnone. split.
  - unfold get_by_value, select_fetchrow. by rewrite Hnone.
  - unfold get_by_value, select_fetchrow. rewrite add_table. simpl.
    rewrite find_app_None by done. simpl.
    unfold item_is. simpl. by rewrite bool_decide_eq_true_2.
Qed.

(** X1. A value no row of the table holds is not found by
    [get_by_value]; once [add] has stored it, [get_by_value] finds the
    new entry, active and under the index [add] returned, and [get_all]
    lists it. *)
Theorem add_then_get_by_value self v db :
  Forall (λ r, item r ≠ str v) (rows (db self)) →
  get_by_value self v db = None
  ∧ get_by_value self v (add self v db).2
    = Some (mkBlacklistItem (index (add self v db).1) (PyStr (str v)) false)
  ∧ (mkBlacklistItem (index (add self v db).1) (PyStr (str v)) false)
    ∈ get_all self (add self v db).2.
Proof.
  intros Hfresh. destruct (get_by_value_fresh self v db Hfresh) as [Hnone Hsome].
  split_and!; [done|done|].
  unfold get_all, select_fetch. rewrite add_table. simpl.
  rewrite List.filter_app, fmap_app. simpl.
  apply elem_of_app. right. apply list_elem_of_here.
Qed.

Lemma add_then_get_by_value_witness :
  get_by_value AutobahnDomainBlacklist (PyStr "example.com") empty_schema = None
  ∧ get_by_value AutobahnDomainBlacklist (PyStr "example.com")
      (add AutobahnDomainBlacklist (PyStr "example.com") empty_schema).2
    = Some (mkBlacklistItem 1 (PyStr "example.com") false)
  ∧ mkBlacklistItem 1 (PyStr "example.com") false
    ∈ get_all AutobahnDomainBlacklist
        (add AutobahnDomainBlacklist (PyStr "example.com") empty_schema).2.
Proof.
  apply (add_then_get_by_value AutobahnDomainBlacklist (PyStr "example.com")
           empty_schema).
  constructor.
Defined.

(** X2. Whatever [get_by_value] finds is active, carries the string
    form of the value and is listed by [get_all]; [get_all] lists active
    entries only; after [retire] of a value [get_all] lists no entry
    with that value, and nothing it did not list before. *)
Theorem get_all_lists_active_entries self v db :
  (∀ e, get_by_value self v db = Some e →
        e ∈ get_all self db ∧ bl_retired e = false ∧ value e = PyStr (str v))
  ∧ (∀ e, e ∈ get_all self db → bl_retired e = false)
  ∧ (∀ e, e ∈ get_all self (retire self v db).2 → value e ≠ PyStr (str v))
  ∧ (∀ e, e ∈ get_all self (retire self v db).2 → e ∈ get_all self db).
Proof.
  split_and!.
  - intros e. unfold get_by_value, select_fetchrow.
    destruct (List.find (item_is (str v)) (rows (db self))) as [r|] eqn:Hfind;
      [|done].
    destruct (retired r) eqn:Hret; [done|]. intros [= <-].
    apply List.find_some in Hfind as [Hin Hitem].
    unfold item_is in Hitem. apply bool_decide_eq_true_1 in Hitem.
    split_and!; [|done|by rewrite <- Hitem].
    unfold get_all, select_fetch. apply list_elem_of_fmap. exists r. split; [done|].
    apply list_elem_of_In, List.filter_In. split; [done|]. by rewrite Hret.
  - intros e. unfold get_all, select_fetch.
    intros (r & -> & Hin)%list_elem_of_fmap.
    apply list_elem_of_In, List.filter_In in Hin as [_ Hret]. simpl.
    by destruct (retired r).
  - intros e. unfold get_all, select_fetch. rewrite retire_table. simpl.
    intros (r & -> & Hin)%list_elem_of_fmap.
    apply list_elem_of_In, List.filter_In in Hin as [Hin Hret].
    apply List.in_map_iff in Hin as (r0 & <- & _). simpl. intros [= Hitem].
    destruct (item_is (str v) r0) eqn:Hp; simpl in *; [done|].
    unfold item_is in Hp. by rewrite bool_decide_eq_false in Hp.
  - intros e. unfold get_all, select_fetch. rewrite retire_table. simpl.
    intros (r & -> & Hin)%list_elem_of_fmap.
    apply list_elem_of_In, List.filter_In in Hin as [Hin Hret].
    apply List.in_map_iff in Hin as (r0 & <- & Hin0).
    destruct (item_is (str v) r0) eqn:Hp; simpl in *; [done|].
    apply list_elem_of_fmap. exists r0. split; [done|].
    apply list_elem_of_In, List.filter_In. by split.
Qed.

(** X3. [retire] of one value leaves every other value alone:
    [get_by_value] answers as before for a value with another string
    form, and the entries of such a value that [get_all] lists are the
    same. *)
Theorem retire_leaves_other_values self v w db :
  str w ≠ str v →
  get_by_value self w (retire self v db).2 = get_by_value self w db
  ∧ (∀ e, value e = PyStr (str w) →
          e ∈ get_all self (retire self v db).2 ↔ e ∈ get_all self db).
Proof.
  intros Hne. split.
  - unfold get_by_value, select_fetchrow. rewrite retire_table. simpl.
    rewrite find_map_stable
      by (intros r; by destruct (item_is (str v) r)).
    destruct (List.find (item_is (str w)) (rows (db self))) as [r|] eqn:Hfind;
      [|done].
    simpl. apply List.find_some in Hfind as [_ Hitem].
    unfold item_is in Hitem. apply bool_decide_eq_true_1 in Hitem.
    unfold item_is. rewrite bool_decide_eq_false_2 by congruence. done.
  - intros e He. unfold get_all, select_fetch. rewrite retire_table. simpl.
    rewrite !list_elem_of_fmap. split.
    + intros (r & -> & Hin).
      apply list_elem_of_In, List.filter_In in Hin as [Hin Hret].
      apply List.in_map_iff in Hin as (r0 & <- & Hin0).
      destruct (item_is (str v) r0) eqn:Hp; simpl in *; [done|].
      exists r0. split; [done|]. apply list_elem_of_In, List.filter_In. by split.
    + intros (r & -> & Hin). simpl in He. injection He as He.
      apply list_elem_of_In, List.filter_In in Hin as [Hin Hret].
      exists r. split; [done|]. apply list_elem_of_In, List.filter_In.
      split; [|done]. apply List.in_map_iff. exists r. split; [|done].
      unfold item_is. rewrite bool_decide_eq_false_2 by congruence. done.
Qed.

Lemma retire_leaves_other_values_witness :
  let db := run [CallAdd AutobahnStringBlacklist (PyStr "a");
                 CallAdd AutobahnStringBlacklist (PyStr "b")] empty_schema in
  get_by_value AutobahnStringBlacklist (PyStr "b")
    (retire AutobahnStringBlacklist (PyStr "a") db).2
  = get_by_value AutobahnStringBlacklist (PyStr "b") db
  ∧ (∀ e, value e = PyStr "b" →
          e ∈ get_all AutobahnStringBlacklist
                (retire AutobahnStringBlacklist (PyStr "a") db).2
          ↔ e ∈ get_all AutobahnStringBlacklist db).
Proof.
  intros db.
  apply (retire_leaves_other_values AutobahnStringBlacklist (PyStr "a") (PyStr "b") db).
  discriminate.
Defined.

Lemma step_other (c : Call) self db :
  call_category c ≠ self → step c db self = db self.
Proof.
  destruct c as [self' v|self' v]; simpl; intros Hne.
  - by apply add_other.
  - by apply retire_other.
Qed.

Lemma step_same_table (c : Call) db db' :
  db (call_category c) = db' (call_category c) →
  step c db (call_category c) = step c db' (call_category c).
Proof.
  destruct c as [self' v|self' v]; cbn [call_category step]; intros Heq.
  - by rewrite !add_table, Heq.
  - by rewrite !retire_table, Heq.
Qed.

(** X4. The table of a category after a history of calls is the
    table after the calls of the history that address this category:
    calls on the other categories never change it. *)
Theorem categories_are_independent (history : list Call) self db :
  run history db self = run (calls_on self history) db self.
Proof.
  cut (∀ db db', db self = db' self →
         run history db self = run (calls_on self history) db' self).
  { intros H. by apply H. }
  induction history as [|c history IH]; intros db1 db2 Heq; [done|].
  rewrite run_cons. unfold calls_on. simpl. case_bool_decide as Hc.
  - rewrite run_cons. apply IH. subst self. by apply step_same_table.
  - apply IH. by rewrite step_other.
Qed.



End denylist_extras.

Section command_extras.

Import AutobahnBlacklist autobahn_mgr.

Variable resolve_channel : string → Resolved.
Variable resolve_url : string → string.
Variable TELEGRAM_DOMAINS : list string.
Variable resolve_invite_link : string → option Z.
Variable hash_file : list ascii → string.
Variable hash_photo : list ascii → string.

(** A type with a table has the hex code of that table. *)
Lemma blacklists_get_hex (h : option string) (c : Category) :
  blacklists_get h = Some c → h = Some (hex_type c).
Proof.
  destruct h as [h|]; [|done]. unfold blacklists_get.
  intros Hfind. apply List.find_some in Hfind as [_ Hh].
  apply bool_decide_eq_true_1 in Hh. by rewrite Hh.
Qed.

Lemma for_add_item_no_table (hex : option string) (items : list string) s :
  let run := for_ items (add_item resolve_channel resolve_url TELEGRAM_DOMAINS hex None) s in
  run.2 = Ok tt
  ∧ blacklists run.1 = blacklists s ∧ msg_calls run.1 = msg_calls s
  ∧ added_items run.1 = added_items s ∧ existing_items run.1 = existing_items s
  ∧ skipped_items run.1 = skipped_items s ∧ removed_items run.1 = removed_items s
  ∧ warn_message run.1 = warn_message s.
Proof.
  revert s. induction items as [|x items IH]; intros s; [done|].
  cbn [for_]. unfold bind at 1. unfold add_item at 1, bind at 1, set_item, modify.
  destruct hex; apply IH.
Qed.

(** X7. The command [add] with a type that has no table (a name
    outside [AUTOBAHN_TYPES], a hex code, or the types [filename] and
    [tld]) changes no table, touches no message and answers with an
    empty report, whatever the items are. *)
Theorem add_without_table msg item_type (items : list string) db :
  blacklists_get (AUTOBAHN_TYPES_get item_type) = None →
  let run := autobahn_mgr.add resolve_channel resolve_url TELEGRAM_DOMAINS
    hash_file hash_photo msg item_type items (start db) in
  run.2 = Ok (Report [] [] [] [] EmptyString)
  ∧ blacklists run.1 = db
  ∧ msg_calls run.1 = [].
Proof.
  intros Hnone run. subst run. unfold autobahn_mgr.add. rewrite Hnone.
  set (hex := AUTOBAHN_TYPES_get item_type) in *.
  assert (bool_decide (hex = Some "0x5") = false) as H5.
  { apply bool_decide_eq_false_2. intros ->. by vm_compute in Hnone. }
  assert (bool_decide (hex = Some "0x6") = false) as H6.
  { apply bool_decide_eq_false_2. intros ->. by vm_compute in Hnone. }
  rewrite H5, H6, !andb_false_r.
  destruct (for_add_item_no_table hex items (start db))
    as (Hok & Hdb & Hcalls & Hadd & Hex & Hsk & Hrm & Hwarn).
  unfold bind, ret, report, gets. cbn beta iota.
  destruct (for_ items _ (start db)) as [s [[]|e]]; [|done]. simpl in *.
  rewrite Hadd, Hex, Hsk, Hrm, Hwarn. by split_and!.
Qed.

(** One item of a category whose items are taken as they are. *)
Lemma add_item_direct (c : Category) (x : string) s :
  c ∈ [AutobahnBioBlacklist; AutobahnStringBlacklist; AutobahnFileBlacklist;
       AutobahnMHashBlacklist] →
  add_item resolve_channel resolve_url TELEGRAM_DOMAINS
    (Some (hex_type c)) (Some c) x s
  = match get_by_value c (PyStr x) (blacklists s) with
    | None =>
        let '(entry, db) := AutobahnBlacklist.add c (PyStr x) (blacklists s) in
        (mkState db (msg_calls s) (added_items s ++ [(index entry, PyStr x)])
                 (existing_items s) (skipped_items s) (removed_items s)
                 (warn_message s) (Some (PyStr x)),
         Ok tt)
    | Some existing_one =>
        (mkState (blacklists s) (msg_calls s) (added_items s)
                 (existing_items s ++ [(index existing_one, value existing_one)])
                 (skipped_items s) (removed_items s) (warn_message s)
                 (Some (PyStr x)),
         Ok tt)
    end.
Proof.
  intros Hc. unfold add_item.
  assert (bool_decide (hex_type c = "0x3") = false
          ∧ bool_decide (hex_type c = "0x4") = false
          ∧ bool_decide (hex_type c = "0x7") = false) as (-> & -> & ->).
  { repeat (apply elem_of_cons in Hc as [->|Hc]; [done|]).
    by apply elem_of_nil in Hc. }
  unfold bind, set_item, modify, read_item, blacklist_get_by_value, gets. simpl.
  destruct (get_by_value c (PyStr x) (blacklists s)) as [e|]; [done|].
  unfold blacklist_add, on_blacklists. simpl. done.
Qed.

(** X6. The command [add] with an item of a category whose items are
    stored as given (bio, string, file, mhash), the item being in no row
    of the table: the first run reports it as added under the next
    index; a second run reports it as existing under the same index and
    changes no table. *)
Theorem add_twice_reports_existing msg (c : Category) (x : string) db :
  c ∈ [AutobahnBioBlacklist; AutobahnStringBlacklist; AutobahnFileBlacklist;
       AutobahnMHashBlacklist] →
  Forall (λ r, AutobahnBlacklist.item r ≠ x) (rows (db c)) →
  let first := autobahn_mgr.add resolve_channel resolve_url TELEGRAM_DOMAINS
                 hash_file hash_photo msg (name c) [x] (start db) in
  let second := autobahn_mgr.add resolve_channel resolve_url TELEGRAM_DOMAINS
                  hash_file hash_photo msg (name c) [x]
                  (start (blacklists first.1)) in
  let i := next_id (db c) in
  first.2 = Ok (Report [(i, PyStr x)] [] [] [] EmptyString)
  ∧ second.2 = Ok (Report [] [(i, PyStr x)] [] [] EmptyString)
  ∧ (∀ c', blacklists second.1 c' = blacklists first.1 c')
  ∧ length (rows (blacklists second.1 c)) = S (length (rows (db c))).
Proof.
  intros Hc Hfresh first second i.
  destruct (get_by_value_fresh c (PyStr x) db Hfresh) as [Hnone Hsome].
  assert (AUTOBAHN_TYPES_get (name c) = Some (hex_type c)
          ∧ blacklists_get (Some (hex_type c)) = Some c) as [Hty Hbl].
  { repeat (apply elem_of_cons in Hc as [->|Hc]; [done|]).
    by apply elem_of_nil in Hc. }
  assert (first = (mkState (AutobahnBlacklist.add c (PyStr x) db).2 []
                           [(i, PyStr x)] [] [] [] EmptyString (Some (PyStr x)),
                   Ok (Report [(i, PyStr x)] [] [] [] EmptyString))) as Hfirst.
  { unfold first, autobahn_mgr.add. rewrite Hty, Hbl.
    cbn [for_]. unfold bind at 1. unfold bind at 1.
    rewrite (add_item_direct c x _ Hc). cbn [start blacklists]. rewrite Hnone.
    simpl. done. }
  assert (second = (mkState (AutobahnBlacklist.add c (PyStr x) db).2 []
                           [] [(i, PyStr x)] [] [] EmptyString (Some (PyStr x)),
                   Ok (Report [] [(i, PyStr x)] [] [] EmptyString))) as Hsecond.
  { unfold second. rewrite Hfirst. cbn [fst blacklists].
    unfold autobahn_mgr.add. rewrite Hty, Hbl.
    cbn [for_]. unfold bind at 1. unfold bind at 1.
    rewrite (add_item_direct c x _ Hc). cbn [start blacklists]. rewrite Hsome.
    simpl. done. }
  rewrite Hsecond, Hfirst. cbn [fst snd blacklists]. split_and!; try done.
  rewrite add_table. simpl. rewrite length_app. simpl. lia.
Qed.

(** X8. The command [add domain] with an item that resolves to one of
    [TELEGRAM_DOMAINS] lists the resolved domain as skipped and stores
    nothing. *)
Theorem add_skips_telegram_domain msg (x : string) db :
  resolve_url x ∈ TELEGRAM_DOMAINS →
  let run := autobahn_mgr.add resolve_channel resolve_url TELEGRAM_DOMAINS
               hash_file hash_photo msg "domain" [x] (start db) in
  run.2 = Ok (Report [] [] [PyStr (resolve_url x)] [] EmptyString)
  ∧ blacklists run.1 = db.
Proof.
  intros Hin run. unfold run, autobahn_mgr.add. simpl.
  unfold bind, add_item, set_item, modify, skipped_items_append, ret, report,
    gets. simpl.
  rewrite bool_decide_eq_true_2 by done. done.
Qed.

End command_extras.

Lemma add_twice_reports_existing_witness :
  let msg := autobahn_mgr.mkMessage false None None in
  let add := autobahn_mgr.add (λ _, autobahn_mgr.Key PyNone) (λ url, url)
               ["t.me"] (λ _, "h") (λ _, "p") in
  let first := add msg "string" ["buy now"]
                 (autobahn_mgr.start AutobahnBlacklist.empty_schema) in
  let second := add msg "string" ["buy now"]
                  (autobahn_mgr.start (autobahn_mgr.blacklists first.1)) in
  first.2 = Ok (autobahn_mgr.Report [(1, PyStr "buy now")] [] [] [] EmptyString)
  ∧ second.2
    = Ok (autobahn_mgr.Report [] [(1, PyStr "buy now")] [] [] EmptyString)
  ∧ (∀ c', autobahn_mgr.blacklists second.1 c'
           = autobahn_mgr.blacklists first.1 c')
  ∧ length (AutobahnBlacklist.rows
              (autobahn_mgr.blacklists second.1
                 AutobahnBlacklist.AutobahnStringBlacklist)) = 1%nat.
Proof.
  intros msg add.
  apply (add_twice_reports_existing (λ _, autobahn_mgr.Key PyNone) (λ url, url)
           ["t.me"] (λ _, "h") (λ _, "p") msg
           AutobahnBlacklist.AutobahnStringBlacklist "buy now"
           AutobahnBlacklist.empty_schema).
  - apply list_elem_of_further, list_elem_of_here.
  - constructor.
Defined.

Lemma add_without_table_witness :
  let run := autobahn_mgr.add (λ _, autobahn_mgr.Key PyNone) (λ url, url)
               ["t.me"] (λ _, "h") (λ _, "p")
               (autobahn_mgr.mkMessage false None None) "tld" ["com"; "org"]
               (autobahn_mgr.start AutobahnBlacklist.empty_schema) in
  run.2 = Ok (autobahn_mgr.Report [] [] [] [] EmptyString)
  ∧ autobahn_mgr.blacklists run.1 = AutobahnBlacklist.empty_schema
  ∧ autobahn_mgr.msg_calls run.1 = [].
Proof.
  apply (add_without_table (λ _, autobahn_mgr.Key PyNone) (λ url, url)
           ["t.me"] (λ _, "h") (λ _, "p")
           (autobahn_mgr.mkMessage false None None) "tld" ["com"; "org"]
           AutobahnBlacklist.empty_schema).
  reflexivity.
Defined.

Lemma add_skips_telegram_domain_witness :
  let run := autobahn_mgr.add (λ _, autobahn_mgr.Key PyNone) (λ url, url)
               ["t.me"] (λ _, "h") (λ _, "p")
               (autobahn_mgr.mkMessage false None None) "domain" ["t.me"]
               (autobahn_mgr.start AutobahnBlacklist.empty_schema) in
  run.2 = Ok (autobahn_mgr.Report [] [] [PyStr "t.me"] [] EmptyString)
  ∧ autobahn_mgr.blacklists run.1 = AutobahnBlacklist.empty_schema.
Proof.
  apply (add_skips_telegram_domain (λ _, autobahn_mgr.Key PyNone) (λ url, url)
           ["t.me"] (λ _, "h") (λ _, "p")
           (autobahn_mgr.mkMessage false None None) "t.me"
           AutobahnBlacklist.empty_schema).
  apply list_elem_of_here.
Defined.

Section del_extras.

Import AutobahnBlacklist autobahn_mgr.

Variable resolve_invite_link : string → option Z.

Lemma existsb_find {A} (p : A → bool) (l : list A) :
  existsb p l = bool_decide (is_Some (List.find p l)).
Proof.
  induction l as [|a l IH]; simpl; [done|].
  destruct (p a); simpl; [done | exact IH].
Qed.

Lemma existsb_retire self c v (s : string) db :
  existsb (item_is s) (rows ((retire self v db).2 c))
  = existsb (item_is s) (rows (db c)).
Proof.
  destruct (decide (c = self)) as [->|Hne]; [|by rewrite retire_other].
  rewrite retire_table, !existsb_find. simpl.
  rewrite find_map_stable by (intros r; by destruct (item_is (str v) r)).
  by destruct (List.find (item_is s) (rows (db self))).
Qed.

Lemma get_by_value_None_retire self v w db :
  get_by_value self w db = None →
  get_by_value self w (retire self v db).2 = None.
Proof.
  unfold get_by_value, select_fetchrow. rewrite retire_table. simpl.
  rewrite find_map_stable by (intros r; by destruct (item_is (str v) r)).
  destruct (List.find (item_is (str w)) (rows (db self))) as [r|]; [|done].
  simpl. destruct (retired r) eqn:Hret; [|done]. intros _.
  destruct (item_is (str v) r); simpl; by rewrite ?Hret.
Qed.

Lemma run_retires_get_by_value self (keys : list PyVal) db :
  (∀ k, get_by_value self k db = None →
        get_by_value self k (run (CallRetire self <$> keys) db) = None)
  ∧ (∀ k, k ∈ keys →
          get_by_value self k (run (CallRetire self <$> keys) db) = None).
Proof.
  revert db. induction keys as [|k0 keys IH]; intros db.
  { split; [done|]. by intros k ?%elem_of_nil. }
  rewrite fmap_cons, run_cons. cbn [step].
  destruct (IH (retire self k0 db).2) as [IH1 IH2]. split.
  - intros k Hk. by apply IH1, get_by_value_None_retire.
  - intros k [->|Hin]%elem_of_cons; [|by apply IH2].
    apply IH1, retire_get_by_value.
Qed.

Lemma run_retires_length self c (keys : list PyVal) db :
  length (rows (run (CallRetire self <$> keys) db c)) = length (rows (db c)).
Proof.
  revert db. induction keys as [|k0 keys IH]; intros db; [done|].
  rewrite fmap_cons, run_cons, IH. cbn [step].
  destruct (decide (c = self)) as [->|Hne]; [|by rewrite retire_other].
  rewrite retire_table. simpl. by rewrite length_map.
Qed.

(** The key [del_] looks for: a channel token is replaced by the chat
    id its invite link resolves to, [None] when it does not resolve. *)
Lemma del_item_step item_type (c : Category) (x : string) s :
  blacklists_get (AUTOBAHN_TYPES_get item_type) = Some c →
  let k := if bool_decide (c = AutobahnChannelBlacklist)
           then match resolve_invite_link x with
                | Some chat_id => PyInt chat_id
                | None => PyNone
                end
           else PyStr x in
  let held := existsb (item_is (str k)) (rows (blacklists s c)) in
  del_item resolve_invite_link item_type x s
  = (mkState (retire c k (blacklists s)).2 (msg_calls s) (added_items s)
             (existing_items s)
             (if held then skipped_items s else skipped_items s ++ [k])
             (if held then removed_items s ++ [k] else removed_items s)
             (warn_message s) (item s),
     Ok tt).
Proof.
  intros Hc k held. unfold del_item. rewrite Hc.
  rewrite (blacklists_get_hex _ _ Hc).
  assert (bool_decide (hex_type c = "0x3")
          = bool_decide (c = AutobahnChannelBlacklist)) as ->.
  { by destruct c. }
  fold k. unfold try_except, bind, blacklist_retire.
  subst held. rewrite existsb_find.
  unfold retire, update_retired_returning_id. cbn [fst snd].
  destruct (List.find (item_is (str k)) (rows (blacklists s c))) as [r|];
    simpl; reflexivity.
Qed.

Lemma for_del_item item_type (c : Category) (items : list string) s :
  blacklists_get (AUTOBAHN_TYPES_get item_type) = Some c →
  let key x := if bool_decide (c = AutobahnChannelBlacklist)
               then match resolve_invite_link x with
                    | Some chat_id => PyInt chat_id
                    | None => PyNone
                    end
               else PyStr x in
  let keys := key <$> items in
  let held k := existsb (item_is (str k)) (rows (blacklists s c)) in
  ∃ s', for_ items (del_item resolve_invite_link item_type) s = (s', Ok tt)
        ∧ blacklists s' = run (CallRetire c <$> keys) (blacklists s)
        ∧ added_items s' = added_items s ∧ existing_items s' = existing_items s
        ∧ warn_message s' = warn_message s
        ∧ skipped_items s' = skipped_items s ++ List.filter (λ k, negb (held k)) keys
        ∧ removed_items s' = removed_items s ++ List.filter held keys.
Proof.
  intros Hc key keys held. subst keys. revert s held.
  induction items as [|x items IH]; intros s held.
  { exists s. simpl. by rewrite !app_nil_r. }
  cbn [for_]. unfold bind at 1. rewrite (del_item_step item_type c x s Hc).
  fold (key x). fold (held (key x)).
  set (s1 := mkState _ _ _ _ _ _ _ _).
  destruct (IH s1) as (s' & Hrun & Hdb & Hadd & Hex & Hwarn & Hsk & Hrm).
  exists s'. rewrite Hrun. split; [done|].
  assert (∀ k, existsb (item_is (str k)) (rows (blacklists s1 c)) = held k)
    as Hheld.
  { intros k. unfold s1. cbn [blacklists]. apply existsb_retire. }
  rewrite (List.filter_ext _ held) in Hrm by done.
  rewrite (List.filter_ext _ (λ k, negb (held k))) in Hsk
    by (intros k; by rewrite Hheld).
  split_and!; try done.
  - rewrite Hsk. unfold s1. cbn [skipped_items fmap list_fmap List.filter].
    destruct (held (key x)); simpl; [done|]. by rewrite <- app_assoc.
  - rewrite Hrm. unfold s1. cbn [removed_items fmap list_fmap List.filter].
    destruct (held (key x)); simpl; [|done]. by rewrite <- app_assoc.
Qed.

(** X9. The command [del_] for a type with a table: an item is listed
    as deleted when some row of the table, retired or not, holds its key,
    and as skipped otherwise, in the order given; afterwards
    [get_by_value] finds none of the keys, no table has lost or gained a
    row, and the tables of the other categories are as they were. *)
Theorem del_report item_type (c : Category) (items : list string) db :
  blacklists_get (AUTOBAHN_TYPES_get item_type) = Some c →
  let key x := if bool_decide (c = AutobahnChannelBlacklist)
               then match resolve_invite_link x with
                    | Some chat_id => PyInt chat_id
                    | None => PyNone
                    end
               else PyStr x in
  let keys := key <$> items in
  let held k := existsb (item_is (str k)) (rows (db c)) in
  let run := del_ resolve_invite_link item_type items (start db) in
  run.2 = Ok (Report [] [] (List.filter (λ k, negb (held k)) keys)
                (List.filter held keys) EmptyString)
  ∧ (∀ k, k ∈ keys → get_by_value c k (blacklists run.1) = None)
  ∧ (∀ c', length (rows (blacklists run.1 c')) = length (rows (db c')))
  ∧ (∀ c', c' ≠ c → blacklists run.1 c' = db c').
Proof.
  intros Hc key keys held run.
  destruct (for_del_item item_type c items (start db) Hc)
    as (s' & Hrun & Hdb & Hadd & Hex & Hwarn & Hsk & Hrm).
  fold key keys in Hdb, Hsk, Hrm. cbn [start blacklists] in Hdb, Hsk, Hrm.
  fold held in Hsk, Hrm. simpl in Hadd, Hex, Hwarn, Hsk, Hrm.
  assert (run = (s', Ok (Report [] [] (List.filter (λ k, negb (held k)) keys)
                           (List.filter held keys) EmptyString))) as ->.
  { unfold run, del_, bind. rewrite Hrun. unfold report, gets.
    by rewrite Hadd, Hex, Hwarn, Hsk, Hrm. }
  cbn [fst snd]. rewrite Hdb. split_and!.
  - done.
  - apply run_retires_get_by_value.
  - intros c'. apply run_retires_length.
  - intros c' Hne. clear -Hne. revert db.
    induction keys as [|k0 ks IH]; intros db; [done|].
    rewrite fmap_cons, run_cons, IH. cbn [step]. by apply retire_other.
Qed.

End del_extras.

Lemma del_report_witness :
  let db := AutobahnBlacklist.run
              [AutobahnBlacklist.CallAdd AutobahnBlacklist.AutobahnFileBlacklist
                 (PyStr "x")]
              AutobahnBlacklist.empty_schema in
  let keys := [PyStr "x"; PyStr "y"] in
  let run := autobahn_mgr.del_ (λ _, None) "file" ["x"; "y"]
               (autobahn_mgr.start db) in
  run.2 = Ok (autobahn_mgr.Report [] [] [PyStr "y"] [PyStr "x"] EmptyString)
  ∧ (∀ k, k ∈ keys →
          AutobahnBlacklist.get_by_value AutobahnBlacklist.AutobahnFileBlacklist
            k (autobahn_mgr.blacklists run.1) = None)
  ∧ (∀ c', length (AutobahnBlacklist.rows (autobahn_mgr.blacklists run.1 c'))
           = length (AutobahnBlacklist.rows (db c')))
  ∧ (∀ c', c' ≠ AutobahnBlacklist.AutobahnFileBlacklist →
           autobahn_mgr.blacklists run.1 c' = db c').
Proof.
  intros db keys.
  apply (del_report (λ _, None) "file" AutobahnBlacklist.AutobahnFileBlacklist
           ["x"; "y"] db).
  reflexivity.
Defined.

Section query_extras.

Import AutobahnBlacklist autobahn_mgr.

(** X10. The command [query] answers 'No blacklist name specified'
    exactly when no positional argument is given or the keyword [type]
    is given: a type passed by keyword is never used. *)
Theorem query_error_iff (args : list Arg) (kw_type kw_code : option Arg) db :
  query args kw_type kw_code db = Ok (QueryError "No blacklist name specified")
  ↔ is_Some kw_type ∨ args = [].
Proof.
  unfold query. destruct kw_type as [ty|], args as [|item_type rest]; simpl.
  - split; [intros _; left; by eexists | done].
  - split; [intros _; left; by eexists | done].
  - split; [intros _; by right | done].
  - split.
    + destruct (blacklists_get_arg (hex_type_of item_type)); [|done].
      destruct (match kw_code with Some _ => kw_code | None => head rest end)
        as [code|]; [|done].
      by destruct (indices_of code).
    + intros [[? [=]]|[=]].
Qed.

(** X11. A listing by [query] holds at most [MAX_QUERY_ITEMS] items,
    each one a row of the table of the type; the total count is the
    number of active entries and is left out when there is none; without
    a code the items are the first active entries, while a code may list
    retired entries too. *)
Theorem query_page (args : list Arg) (kw_type kw_code : option Arg) db
    item_type hex items total :
  query args kw_type kw_code db = Ok (Items item_type hex items total) →
  ∃ c, blacklists_get_arg hex = Some c
       ∧ (length items ≤ MAX_QUERY_ITEMS)%nat
       ∧ total = (match get_all c db with
                  | [] => None
                  | _ :: _ => Some (length (get_all c db))
                  end)
       ∧ Forall (λ kv, ∃ r, r ∈ rows (db c) ∧ id r = kv.1
                            ∧ kv.2 = PyStr (AutobahnBlacklist.item r)) items
       ∧ (kw_code = None → (length args ≤ 1)%nat →
          items = (λ e, (index e, value e)) <$> take MAX_QUERY_ITEMS (get_all c db)).
Proof.
  unfold query. destruct kw_type as [ty|], args as [|ty0 rest]; try done.
  destruct (blacklists_get_arg (hex_type_of ty0)) as [c|] eqn:Hc; [|done].
  set (code := match kw_code with Some _ => kw_code | None => head rest end).
  assert (∀ l : list BlacklistItem,
            (∀ e, e ∈ l → ∃ r, r ∈ rows (db c) ∧ e = of_row r) →
            Forall (λ kv, ∃ r, r ∈ rows (db c) ∧ id r = kv.1
                               ∧ kv.2 = PyStr (AutobahnBlacklist.item r))
                   ((λ e, (index e, value e)) <$> take MAX_QUERY_ITEMS l))
    as Hrows.
  { intros l Hl. rewrite Forall_fmap. apply Forall_forall. intros e He.
    destruct (Hl e) as (r & Hr & ->).
    { by apply (subseteq_take MAX_QUERY_ITEMS l). }
    by exists r. }
  assert (∀ p e, e ∈ of_row <$> select_fetch p (db c) →
                 ∃ r, r ∈ rows (db c) ∧ e = of_row r) as Hfetch.
  { intros p e (r & -> & Hin)%list_elem_of_fmap. exists r. split; [|done].
    apply list_elem_of_In. apply list_elem_of_In in Hin.
    unfold select_fetch in Hin. by apply List.filter_In in Hin as [Hin _]. }
  destruct code as [code'|] eqn:Hcode.
  - destruct (indices_of code') as [indices|]; [|done].
    intros [= <- <- <- <-]. exists c. split_and!; try done.
    + rewrite length_fmap, length_take. lia.
    + apply Hrows. intros e. apply Hfetch.
    + intros -> Hlen. destruct rest; [done|simpl in Hlen; lia].
  - intros [= <- <- <- <-]. exists c. split_and!; try done.
    + rewrite length_fmap, length_take. lia.
    + apply Hrows. intros e. apply Hfetch.
Qed.

Lemma query_page_witness :
  let db := run [CallAdd AutobahnDomainBlacklist (PyStr "a.com");
                 CallAdd AutobahnDomainBlacklist (PyStr "b.com");
                 CallRetire AutobahnDomainBlacklist (PyStr "a.com")]
                empty_schema in
  let items := [(1, PyStr "a.com"); (2, PyStr "b.com")] in
  ∃ c, blacklists_get_arg (ArgStr "0x4") = Some c
       ∧ (length items ≤ MAX_QUERY_ITEMS)%nat
       ∧ Some 1%nat = (match get_all c db with
                       | [] => None
                       | _ :: _ => Some (length (get_all c db))
                       end)
       ∧ Forall (λ kv, ∃ r, r ∈ rows (db c) ∧ id r = kv.1
                            ∧ kv.2 = PyStr (AutobahnBlacklist.item r)) items
       ∧ (Some (ArgSeq [1; 2]) = None → (length [ArgStr "domain"] ≤ 1)%nat →
          items
          = (λ e, (index e, value e)) <$> take MAX_QUERY_ITEMS (get_all c db)).
Proof.
  intros db items.
  apply (query_page [ArgStr "domain"] None (Some (ArgSeq [1; 2])) db
           (ArgStr "domain") (ArgStr "0x4")).
  reflexivity.
Defined.

(** X12. [query] takes the hex code of a type for the type: called
    with the hex code it gives the same items and total count as called
    with the name, or raises the same exception; the table is found
    either way. *)
Theorem query_accepts_hex_code (c : Category) (rest : list Arg)
    (kw_code : option Arg) db :
  query (ArgStr (name c) :: rest) None kw_code db
  = match query (ArgStr (hex_type c) :: rest) None kw_code db with
    | Ok (Items _ hex items total) => Ok (Items (ArgStr (name c)) hex items total)
    | r => r
    end
  ∧ query (ArgStr (hex_type c) :: rest) None kw_code db
    ≠ Ok (QueryError "No blacklist name specified")
  ∧ query (ArgStr (hex_type c) :: rest) None kw_code db ≠ Raise AttributeError.
Proof.
  unfold query.
  assert (hex_type_of (ArgStr (name c)) = ArgStr (hex_type c)
          ∧ hex_type_of (ArgStr (hex_type c)) = ArgStr (hex_type c)
          ∧ blacklists_get_arg (ArgStr (hex_type c)) = Some c) as (-> & -> & ->).
  { by destruct c. }
  destruct (match kw_code with Some _ => kw_code | None => head rest end)
    as [code|]; [|done].
  destruct code as [[|a s]|z|zs]; done.
Qed.

End query_extras.

Section enforcement_extras.

Import grenzschutz.

Ltac in_calls :=
  repeat first [apply list_elem_of_here | apply list_elem_of_further].

Ltac not_in_calls H :=
  repeat (apply elem_of_cons in H as [H|H]; [discriminate H|]);
  by apply elem_of_nil in H.

(** The handler, run: what it comes to for each answer of the
    collaborators. *)
Lemma grenzschutz_unfold env event :
  grenzschutz env event []
  = if is_private event then ([], Ok tt)
    else if negb (shape_ok event) then ([], Ok tt)
    else if negb (may_ban (get_chat env)) then ([event_get_chat], Ok tt)
    else if opted_out env then ([event_get_chat; Tags_create], Ok tt)
    else match subject event with
         | None => ([event_get_chat; Tags_create], Ok tt)
         | Some uid =>
             let looked :=
               [event_get_chat; Tags_create; client_get_entity uid]
               ++ match get_entity env uid with
                  | Some _ => []
                  | None => [logger_error]
                  end
               ++ [db_banlist_get uid] in
             match BanList.get_user uid (db_banlist env) with
             | None => (looked, Ok tt)
             | Some result =>
                 if bool_decide (uid ∉ admins env) then
                   if ban_invalid env uid
                   then (looked ++ [client_get_participants (chat_id event);
                                    client_ban uid; logger_error], Ok tt)
                   else
                     if bool_decide (tags env !! "grenzschutz" = Some "silent")
                     then (looked ++ [client_get_participants (chat_id event);
                                      client_ban uid; event_delete], Ok tt)
                     else match get_entity env uid with
                          | Some user =>
                              (looked ++ [client_get_participants (chat_id event);
                                          client_ban uid; event_delete;
                                          client_respond
                                            (mkNotification (first_name user) uid
                                               (BanList.bu_reason result))],
                               Ok tt)
                          | None =>
                              (looked ++ [client_get_participants (chat_id event);
                                          client_ban uid; event_delete],
                               Raise UnboundLocalError)
                          end
                 else (looked ++ [client_get_participants (chat_id event)], Ok tt)
             end
         end.
Proof.
  unfold grenzschutz.
  destruct (is_private event); [done|].
  destruct (shape_ok event); [|done]. cbn [negb].
  unfold bind at 1. cbn [call modify app].
  destruct (may_ban (get_chat env)); [|done]. cbn [negb].
  unfold bind at 1. cbn [call modify app].
  destruct (opted_out env); [done|].
  destruct (subject event) as [uid|]; [|done].
  unfold bind, try_except, ban, call, modify, ret, raise. simpl.
  destruct (get_entity env uid);
    destruct (BanList.get_user uid (db_banlist env)); simpl; try done;
    destruct (bool_decide (uid ∉ admins env)); simpl; try done;
    destruct (ban_invalid env uid); simpl; try done;
    destruct (bool_decide (tags env !! "grenzschutz" = Some "silent")); done.
Qed.

Ltac handler_all env event :=
  rewrite (grenzschutz_unfold env event);
  destruct (is_private event) eqn:Hprivate;
  [|destruct (shape_ok event) eqn:Hshape; cbn [negb];
    [destruct (may_ban (get_chat env)) eqn:Hmay; cbn [negb];
     [destruct (opted_out env) eqn:Hopt;
      [|destruct (subject event) as [uid|] eqn:Hsubject;
        [destruct (get_entity env uid) as [user|] eqn:Hentity;
         destruct (BanList.get_user uid (db_banlist env)) as [result|] eqn:Hbanned;
         [case_bool_decide as Hadmin;
          [destruct (ban_invalid env uid) eqn:Hinvalid;
           [|case_bool_decide as Hsilent]|]
         | |case_bool_decide as Hadmin;
          [destruct (ban_invalid env uid) eqn:Hinvalid;
           [|case_bool_decide as Hsilent]|]
         |]|]]|]|]];
  cbn [fst snd app].

(** X13. Whenever the handler calls [client.ban], the event passed
    the private-chat, shape, authority and opt-out tests, the user
    banned is the subject of the event, is in the ban list and is not
    among the admins of the chat; and it is the only call to
    [client.ban]. *)
Theorem ban_only_banned_subject env event u :
  client_ban u ∈ (grenzschutz env event []).1 →
  is_private event = false ∧ shape_ok event = true
  ∧ may_ban (get_chat env) = true ∧ opted_out env = false
  ∧ subject event = Some u
  ∧ is_Some (BanList.get_user u (db_banlist env))
  ∧ (u ∉ admins env)
  ∧ ban_calls (grenzschutz env event []).1 = [client_ban u].
Proof.
  handler_all env event; intros H; try (by not_in_calls H);
    repeat (apply elem_of_cons in H as [H|H]; [try discriminate H|]);
    try (by apply elem_of_nil in H);
    injection H as <-; by split_and!.
Qed.

Lemma ban_only_banned_subject_witness :
  let env := mkEnv (mkChannel true None) ∅ (λ _, Some (mkUser "u"))
                   {[ 7 := BanList.mkRow "spam" 0 None ]} [1] (λ _, false) in
  let event := NewMessage_Event false (Some 7) 100 in
  is_private event = false ∧ shape_ok event = true
  ∧ may_ban (get_chat env) = true ∧ opted_out env = false
  ∧ subject event = Some 7
  ∧ is_Some (BanList.get_user 7 (db_banlist env))
  ∧ (7 ∉ admins env)
  ∧ ban_calls (grenzschutz env event []).1 = [client_ban 7].
Proof.
  intros env event. apply (ban_only_banned_subject env event 7).
  vm_compute. in_calls.
Defined.



(** X15. A notification the handler sends names the subject of the
    event, with the first name [get_entity] gave and the reason
    recorded in the ban list, and it is the last of the calls, after the
    ban of the subject and the deletion of the message. *)
Theorem notification_names_the_banned_subject env event n :
  client_respond n ∈ (grenzschutz env event []).1 →
  ∃ uid user row,
    subject event = Some uid
    ∧ get_entity env uid = Some user
    ∧ db_banlist env !! uid = Some row
    ∧ n = mkNotification (first_name user) uid (BanList.reason row)
    ∧ client_ban uid ∈ (grenzschutz env event []).1
    ∧ event_delete ∈ (grenzschutz env event []).1
    ∧ (grenzschutz env event []).1
      = [event_get_chat; Tags_create; client_get_entity uid; db_banlist_get uid;
         client_get_participants (chat_id event); client_ban uid; event_delete;
         client_respond n].
Proof.
  handler_all env event; intros H; try (by not_in_calls H).
  repeat (apply elem_of_cons in H as [H|H]; [try discriminate H|]);
    [|by apply elem_of_nil in H].
  injection H as ->. unfold BanList.get_user in Hbanned.
  destruct (db_banlist env !! uid) as [row|] eqn:Hrow; [|done].
  injection Hbanned as <-. exists uid, user, row.
  split_and!; try done; in_calls.
Qed.

Lemma notification_names_the_banned_subject_witness :
  let env := mkEnv (mkChannel true None) ∅ (λ _, Some (mkUser "u"))
                   {[ 7 := BanList.mkRow "spam" 0 None ]} [1] (λ _, false) in
  let event := NewMessage_Event false (Some 7) 100 in
  let n := mkNotification "u" 7 "spam" in
  ∃ uid user row,
    subject event = Some uid
    ∧ get_entity env uid = Some user
    ∧ db_banlist env !! uid = Some row
    ∧ n = mkNotification (first_name user) uid (BanList.reason row)
    ∧ client_ban uid ∈ (grenzschutz env event []).1
    ∧ event_delete ∈ (grenzschutz env event []).1
    ∧ (grenzschutz env event []).1
      = [event_get_chat; Tags_create; client_get_entity uid; db_banlist_get uid;
         client_get_participants (chat_id event); client_ban uid; event_delete;
         client_respond n].
Proof.
  intros env event n.
  apply (notification_names_the_banned_subject env event n).
  vm_compute. in_calls.
Defined.



(** X17. An event from a private chat, or a chat action that is a
    leave, a kick, or no join or add, makes the handler return without
    a single call to a collaborator. *)
Theorem ignored_events_make_no_call env event :
  is_private event = true ∨ shape_ok event = false →
  grenzschutz env event [] = ([], Ok tt).
Proof.
  rewrite grenzschutz_unfold. intros [-> | ->]; [done|]. by destruct (is_private event).
Qed.

Lemma ignored_events_make_no_call_witness :
  let env := mkEnv (mkChannel true None) ∅ (λ _, None)
                   {[ 7 := BanList.mkRow "spam" 0 None ]} [] (λ _, false) in
  grenzschutz env (ChatAction_Event false true false
                     (Some MessageActionChatAddUser) (Some 7) 100) []
  = ([], Ok tt).
Proof.
  intros env.
  apply (ignored_events_make_no_call env
           (ChatAction_Event false true false (Some MessageActionChatAddUser)
              (Some 7) 100)).
  right. reflexivity.
Defined.

End enforcement_extras.

Section int_of_str.

Import PyInt.

Lemma digit_pretty_N_char (n : N) :
  (n < 10)%N →
  digit (pretty_N_char n) = Some (Z.of_N n) ∧ isspace (pretty_N_char n) = false.
Proof.
  intros Hn. destruct n as [|p]; [done|].
  repeat (destruct p as [p|p|]; try done; try lia).
Qed.

Lemma chars_pretty_N_go (x : N) :
  (0 < x)%N →
  ∀ (prev : Prev) (s : string),
    digits prev 0 (String.list_ascii_of_string (pretty_N_go x s))
    = digits AfterDigit (Z.of_N x) (String.list_ascii_of_string s)
    ∧ (Forall (λ a, isspace a = false) (String.list_ascii_of_string s) →
       Forall (λ a, isspace a = false)
              (String.list_ascii_of_string (pretty_N_go x s))).
Proof.
  induction (N.lt_wf_0 x) as [x _ IH]. intros Hx prev s.
  rewrite pretty_N_go_step by done.
  destruct (digit_pretty_N_char (x `mod` 10)) as [Hd Hsp].
  { by apply N.mod_lt. }
  destruct (decide (x `div` 10 = 0)%N) as [Hz|Hnz].
  - rewrite Hz, pretty_N_go_0. cbn [String.list_ascii_of_string digits].
    rewrite Hd. split.
    + f_equal. apply N.div_small_iff in Hz; [|done].
      rewrite N.mod_small by done. lia.
    + intros Hs. by constructor.
  - destruct (IH (x `div` 10)%N) with (prev := prev)
      (s := String (pretty_N_char (x `mod` 10)) s) as [IH1 IH2].
    { apply N.div_lt; lia. }
    { by apply N.neq_0_lt_0. }
    split.
    + rewrite IH1. cbn [String.list_ascii_of_string digits]. rewrite Hd.
      f_equal. pose proof (N.div_mod x 10 ltac:(done)) as Hdm.
      remember (x `div` 10)%N as q. remember (x `mod` 10)%N as r. lia.
    + intros Hs. apply IH2. cbn [String.list_ascii_of_string]. by constructor.
Qed.

Lemma lstrip_nospace (l : list ascii) :
  Forall (λ a, isspace a = false) l → lstrip l = l.
Proof. destruct 1 as [|a l Ha _]; [done|]. simpl. by rewrite Ha. Qed.

Lemma strip_nospace (l : list ascii) :
  Forall (λ a, isspace a = false) l → strip l = l.
Proof.
  intros Hl. unfold strip. rewrite (lstrip_nospace l) by done.
  rewrite lstrip_nospace by (by apply Forall_reverse).
  apply reverse_involutive.
Qed.

(** A string of digits that starts with a digit carries no sign. *)
Lemma unsigned_digits (s : string) (z : Z) :
  digits AtStart 0 (strip (String.list_ascii_of_string s)) = Some z →
  int s = Some z.
Proof.
  unfold int. destruct (strip (String.list_ascii_of_string s)) as [|a l']; [done|].
  intros Hd.
  destruct (decide (a = "+"%char)) as [->|Hplus]; [done|].
  destruct (decide (a = "-"%char)) as [->|Hminus]; [done|].
  destruct a as [[] [] [] [] [] [] [] []]; done.
Qed.

Lemma int_pretty_pos (p : positive) :
  digits AtStart 0 (String.list_ascii_of_string (pretty (N.pos p)))
  = Some (Z.pos p)
  ∧ Forall (λ a, isspace a = false)
           (String.list_ascii_of_string (pretty (N.pos p))).
Proof.
  unfold pretty, pretty_N. rewrite decide_False by done.
  destruct (chars_pretty_N_go (N.pos p)) with (prev := AtStart) (s := EmptyString)
    as [H1 H2]; [done|].
  split; [by rewrite H1 | by apply H2].
Qed.

(** [int(str(z)) == z] *)
Lemma int_pretty (z : Z) : int (pretty z) = Some z.
Proof.
  destruct z as [|p|p].
  - reflexivity.
  - destruct (int_pretty_pos p) as [Hd Hs]. apply unsigned_digits.
    change (pretty (Z.pos p)) with (pretty (N.pos p)).
    by rewrite strip_nospace.
  - destruct (int_pretty_pos p) as [Hd Hs]. unfold int.
    change (pretty (Z.neg p)) with ("-" +:+ pretty (N.pos p)).
    change (String.list_ascii_of_string ("-" +:+ pretty (N.pos p)))
      with ("-"%char :: String.list_ascii_of_string (pretty (N.pos p))).
    rewrite strip_nospace by (by constructor).
    by rewrite Hd.
Qed.

End int_of_str.

Section ban_list_extras.

Import BanList.

Implicit Types (t : gmap Z Row) (rs : list (Z * Row)) (bans : list Ban).

Lemma upsert_lookup_ne (r : Z * Row) t k :
  k ≠ r.1 → upsert r t !! k = t !! k.
Proof.
  intros Hne. unfold upsert.
  destruct (t !! r.1); by rewrite lookup_insert_ne.
Qed.

Lemma upsert_lookup_eq (r : Z * Row) t :
  upsert r t !! r.1
  = Some (match t !! r.1 with
          | Some old => mkRow (reason r.2) (date r.2) (message old)
          | None => r.2
          end).
Proof. unfold upsert. destruct (t !! r.1); by rewrite lookup_insert_eq. Qed.

Lemma foldl_upsert_notin rs t k :
  k ∉ rs.*1 → foldl (λ t r, upsert r t) t rs !! k = t !! k.
Proof.
  revert t. induction rs as [|r rs IH]; intros t Hk; [done|].
  rewrite fmap_cons, not_elem_of_cons in Hk. destruct Hk as [Hne Hk].
  simpl. rewrite IH by done. by apply upsert_lookup_ne.
Qed.

Lemma foldl_upsert_in rs t k row :
  NoDup rs.*1 → (k, row) ∈ rs →
  foldl (λ t r, upsert r t) t rs !! k
  = Some (match t !! k with
          | Some old => mkRow (reason row) (date row) (message old)
          | None => row
          end).
Proof.
  revert t. induction rs as [|r rs IH]; intros t Hnd Hin.
  { by apply elem_of_nil in Hin. }
  rewrite fmap_cons, NoDup_cons in Hnd. destruct Hnd as [Hnotin Hnd].
  apply elem_of_cons in Hin as [<-|Hin]; simpl.
  - rewrite foldl_upsert_notin by done. apply (upsert_lookup_eq (k, row)).
  - rewrite IH by done. rewrite upsert_lookup_ne; [done|].
    intros ->. apply Hnotin. apply list_elem_of_fmap. by exists (r.1, row).
Qed.






Lemma filter_partition {A} (p : A → bool) (l : list A) :
  List.filter (λ x, negb (p x)) l ++ List.filter p l ≡ₚ l.
Proof.
  induction l as [|a l IH]; [done|]. simpl. destruct (p a); simpl.
  - rewrite <- Permutation_middle. by f_equiv.
  - by f_equiv.
Qed.

Lemma ints_Ok (ss : list string) zs :
  ints ss = Ok zs → Forall2 (λ s z, PyInt.int s = Some z) ss zs.
Proof.
  revert zs. induction ss as [|s ss IH]; intros zs; simpl.
  { intros [= <-]. constructor. }
  destruct (PyInt.int s) as [i|] eqn:Hi; [|done].
  destruct (ints ss) as [zs'|]; [|done]. intros [= <-].
  constructor; [done | by apply IH].
Qed.

(** X19. When [get_all_not_in] returns, its users and the users
    [get_multiple] returns for the same ids are together the users of
    [get_all], each once: the first are those whose id is not among the
    ids, the second those whose id is. *)
Theorem get_all_not_in_partition (not_in : list string) t users :
  get_all_not_in not_in t = Ok users →
  ∃ ids, Forall2 (λ s z, PyInt.int s = Some z) not_in ids
         ∧ users ++ get_multiple ids t ≡ₚ get_all t
         ∧ (∀ u, u ∈ users ↔ u ∈ get_all t ∧ bu_id u ∉ ids)
         ∧ (∀ u, u ∈ get_multiple ids t ↔ u ∈ get_all t ∧ bu_id u ∈ ids).
Proof.
  unfold get_all_not_in. destruct (ints not_in) as [ids|] eqn:Hids; [|done].
  destruct (forallb is_bigint ids); simpl; [|done]. intros [= <-].
  exists ids. split_and!.
  - by apply ints_Ok.
  - unfold get_multiple.
    rewrite <- (filter_partition (λ u, bool_decide (bu_id u ∈ ids)) (get_all t)) at 3.
    f_equiv. erewrite List.filter_ext; [done|]. intros u.
    by rewrite bool_decide_not.
  - intros u. rewrite list_elem_of_In, List.filter_In, <- list_elem_of_In.
    by rewrite bool_decide_eq_true.
  - intros u. unfold get_multiple.
    rewrite list_elem_of_In, List.filter_In, <- list_elem_of_In.
    by rewrite bool_decide_eq_true.
Qed.

Lemma get_all_not_in_partition_witness :
  let t : gmap Z Row := {[ 111 := mkRow "a" 0 None; 222 := mkRow "b" 0 None;
                           333 := mkRow "c" 0 None ]} in
  let users := [mkBannedUser 333 "c"; mkBannedUser 222 "b"] in
  ∃ ids, Forall2 (λ s z, PyInt.int s = Some z) ["111"] ids
         ∧ users ++ get_multiple ids t ≡ₚ get_all t
         ∧ (∀ u, u ∈ users ↔ u ∈ get_all t ∧ bu_id u ∉ ids)
         ∧ (∀ u, u ∈ get_multiple ids t ↔ u ∈ get_all t ∧ bu_id u ∈ ids).
Proof.
  intros t users. apply (get_all_not_in_partition ["111"] t users).
  vm_compute. reflexivity.
Defined.

End ban_list_extras.

Section csv_extras.

Import banlist.

(** X20. [rose_csv_to_dict] drops the first row, raises [IndexError]
    when a later row is empty, and otherwise returns one record per
    later row, in order, with the first field as id and the last field
    as reason. *)
Theorem rose_csv_to_dict_rows (csv_file : list (list string)) :
  ([] ∈ tail csv_file → helpers.rose_csv_to_dict csv_file = Raise IndexError)
  ∧ ([] ∉ tail csv_file →
     ∃ bans, helpers.rose_csv_to_dict csv_file = Ok bans
             ∧ Forall2 (λ line b, head line = Some (BanList.ban_id b)
                                  ∧ last line = Some (BanList.ban_reason b))
                       (tail csv_file) bans).
Proof.
  unfold helpers.rose_csv_to_dict. induction (tail csv_file) as [|line rest [IH1 IH2]].
  { split; [by intros ?%elem_of_nil|]. intros _. exists []. split; [done|constructor]. }
  split.
  - intros [<-|Hin]%elem_of_cons; [done|]. simpl.
    destruct (head line), (last line); try done. by rewrite IH1.
  - intros [Hne Hnotin]%not_elem_of_cons. destruct (IH2 Hnotin) as (bans & Hok & Hall).
    destruct line as [|f line']; [done|]. simpl.
    destruct (last (f :: line')) as [reason|] eqn:Hlast.
    + rewrite Hok. eexists. split; [done|]. constructor; [|done]. by split.
    + by apply last_None in Hlast.
Qed.

Lemma rose_csv_lines_export_rows (users : list BanList.BannedUser) :
  helpers.rose_csv_lines
    ((λ user, [pretty (BanList.bu_id user); BanList.bu_reason user]) <$> users)
  = Ok ((λ user, BanList.mkBan (pretty (BanList.bu_id user))
                               (BanList.bu_reason user)) <$> users).
Proof.
  induction users as [|u users IH]; [done|].
  cbn [fmap list_fmap helpers.rose_csv_lines head last]. by rewrite IH.
Qed.

Lemma records_export_rows now (users : list BanList.BannedUser) :
  BanList.records now
    ((λ user, BanList.mkBan (pretty (BanList.bu_id user))
                            (BanList.bu_reason user)) <$> users)
  = Ok ((λ user, (BanList.bu_id user,
                  BanList.mkRow (BanList.bu_reason user) now None)) <$> users).
Proof.
  induction users as [|u users IH]; [done|].
  cbn [fmap list_fmap BanList.records BanList.ban_id BanList.ban_reason].
  by rewrite int_pretty, IH.
Qed.

(** X21. The rows [export] writes for a ban list, read back by
    [import_] into an empty ban list by a client without authority,
    give every id the reason it had; the count reported is the number of
    rows of the ban list. *)
Theorem export_then_import (client : Client) now msg (t : gmap Z BanList.Row) :
  map_Forall (λ k _, BanList.is_bigint k = true) t →
  sw client = None →
  ∃ rows w,
    export false msg t = Sent rows
    ∧ import_ client now (mkMessage true ".csv" rows) (mkWorld ∅ [] [])
      = (w, Ok (Some (ImportResult (size t))))
    ∧ (∀ uid, BanList.get_user uid (db_banlist w) = BanList.get_user uid t)
    ∧ add_bans_calls w = [].
Proof.
  intros Hbig Hsw. exists (export_rows (BanList.get_all t)).
  set (users := BanList.get_all t).
  set (batch := (λ user, BanList.mkBan (pretty (BanList.bu_id user))
                                       (BanList.bu_reason user)) <$> users).
  assert (helpers.rose_csv_to_dict (export_rows users) = Ok batch) as Hparse.
  { apply rose_csv_lines_export_rows. }
  assert (length batch = size t) as Hlen.
  { unfold batch, users, BanList.get_all. rewrite !length_fmap.
    apply length_map_to_list. }
  rewrite (import_parsed client now _ batch) by done. rewrite Hsw.
  destruct batch as [|b0 batch'] eqn:Hbatch.
  { exists (mkWorld ∅ [] []). split_and!; try done.
    - unfold bind, ret. simpl. by rewrite <- Hlen.
    - intros uid. symmetry in Hlen. apply map_size_empty_iff in Hlen.
      by rewrite Hlen. }
  rewrite <- Hbatch in *. clear Hbatch b0 batch'.
  set (rs := (λ user, (BanList.bu_id user,
                       BanList.mkRow (BanList.bu_reason user) now None)) <$> users).
  assert (rs.*1 = (map_to_list t).*1) as Hkeys.
  { unfold rs, users, BanList.get_all. rewrite <- !list_fmap_compose.
    by apply list_fmap_ext. }
  assert (BanList.upsert_multiple batch now ∅
          = (foldl (λ t r, BanList.upsert r t) ∅ rs, Ok tt)) as Hup.
  { unfold BanList.upsert_multiple, batch. rewrite records_export_rows. fold rs.
    assert (forallb (λ r, BanList.is_bigint r.1) rs = true) as ->.
    { apply forallb_forall. intros [k row] Hin. simpl.
      assert (k ∈ (map_to_list t).*1) as Hk.
      { rewrite <- Hkeys. apply list_elem_of_fmap. exists (k, row).
        split; [done|]. by apply list_elem_of_In. }
      apply list_elem_of_fmap in Hk as ([k' x] & -> & Hk).
      apply elem_of_map_to_list in Hk. by apply (Hbig _ _ Hk). }
    simpl. rewrite bool_decide_eq_true_2; [done|].
    rewrite Hkeys. apply NoDup_fst_map_to_list. }
  eexists. split_and!.
  - done.
  - unfold bind, upsert_multiple, ret. cbn [db_banlist]. rewrite Hup.
    cbn. by rewrite Hlen.
  - intros uid. cbn [db_banlist]. unfold BanList.get_user.
    destruct (t !! uid) as [row|] eqn:Hrow; simpl.
    + rewrite (foldl_upsert_in rs ∅ uid
                 (BanList.mkRow (BanList.reason row) now None)).
      * by rewrite lookup_empty.
      * rewrite Hkeys. apply NoDup_fst_map_to_list.
      * unfold rs, users, BanList.get_all. rewrite <- list_fmap_compose.
        apply list_elem_of_fmap. exists (uid, row). split; [done|].
        by apply elem_of_map_to_list.
    + rewrite foldl_upsert_notin; [by rewrite lookup_empty|].
      rewrite Hkeys. intros ([k x] & -> & Hin)%list_elem_of_fmap.
      apply elem_of_map_to_list in Hin. simpl in Hrow. congruence.
  - done.
Qed.

Lemma export_then_import_witness :
  let t : gmap Z BanList.Row :=
    {[ 111 := BanList.mkRow "spam" 1 None; -5 := BanList.mkRow "a,b" 2 (Some "m") ]} in
  let client := mkClient None 0 (λ _ _, false) in
  ∃ rows w,
    export false (mkMessage false EmptyString []) t = Sent rows
    ∧ import_ client 9 (mkMessage true ".csv" rows) (mkWorld ∅ [] [])
      = (w, Ok (Some (ImportResult (size t))))
    ∧ (∀ uid, BanList.get_user uid (db_banlist w) = BanList.get_user uid t)
    ∧ add_bans_calls w = [].
Proof.
  intros t client.
  apply (export_then_import client 9 (mkMessage false EmptyString []) t).
  - intros k row Hk.
    apply lookup_insert_Some in Hk as [[<- _]|[_ Hk]]; [done|].
    apply lookup_singleton_Some in Hk as [<- _]. done.
  - reflexivity.
Defined.

(** X22. [export] with the [diff] flag raises [TypeError] when the
    command is no reply, and [UnboundLocalError] when it replies to a
    file that is no CSV; without the flag it sends the header and one
    row per user of the ban list. *)
Theorem export_diff_without_csv_reply msg (t : gmap Z BanList.Row) :
  (is_reply msg = false → export true msg t = RaisedTypeError)
  ∧ (is_reply msg = true → reply_ext msg ≠ ".csv" →
     export true msg t = Raised UnboundLocalError)
  ∧ export false msg t = Sent (export_rows (BanList.get_all t)).
Proof.
  unfold export. split_and!.
  - by intros ->.
  - intros -> Hext. simpl. by rewrite bool_decide_eq_false_2.
  - done.
Qed.

End csv_extras.

Section chats_extras.

Context {V : Type}.

Implicit Types (t : gmap Z (gmap string V)) (tags : gmap string V).

(** X23. [Chats.get] answers with the chat of the id asked for,
    carrying the stored tags, or empty tags for a chat it then creates;
    the chat is in the table afterwards, no other row changes, the same
    [get] again gives the same chat and changes nothing, and [add] on
    the chat changes nothing but answers with empty tags. *)
Theorem chats_get_or_create (chat_id : Z) t :
  let t' := (Chats.get chat_id t).1 in
  let chat := (Chats.get chat_id t).2 in
  Chats.id chat = chat_id
  ∧ t' !! chat_id = Some (Chats.tags chat)
  ∧ Chats.tags chat = default ∅ (t !! chat_id)
  ∧ (∀ other, other ≠ chat_id → t' !! other = t !! other)
  ∧ Chats.get chat_id t' = (t', chat)
  ∧ Chats.add chat_id t' = (t', Chats.mkChat chat_id ∅).
Proof.
  unfold Chats.get, Chats.add.
  destruct (t !! chat_id) as [tags|] eqn:Hrow; simpl.
  - rewrite Hrow. by split_and!.
  - rewrite lookup_insert_eq. split_and!; try done.
    intros other Hne. by rewrite lookup_insert_ne.
Qed.

(** X24. [update_tags] replaces the tags of a chat that is in the
    table, so that [get] returns the new tags; for a chat that is not in
    the table it does nothing, and a later [get] finds empty tags; no
    other row changes and no row is created. *)
Theorem chats_update_tags (chat_id : Z) (new : gmap string V) t :
  let t' := Chats.update_tags chat_id new t in
  (is_Some (t !! chat_id) →
   Chats.get chat_id t' = (t', Chats.mkChat chat_id new))
  ∧ (t !! chat_id = None →
     t' = t ∧ (Chats.get chat_id t').2 = Chats.mkChat chat_id ∅)
  ∧ (∀ other, other ≠ chat_id → t' !! other = t !! other)
  ∧ dom t' = dom t.
Proof.
  unfold Chats.update_tags, Chats.get, Chats.add.
  destruct (t !! chat_id) as [tags|] eqn:Hrow; simpl.
  - split_and!.
    + intros _. by rewrite lookup_insert_eq.
    + done.
    + intros other Hne. by rewrite lookup_insert_ne.
    + by apply dom_insert_lookup_L.
  - split_and!; [by intros [? [=]] | | done | done].
    intros _. by rewrite Hrow.
Qed.

End chats_extras.

Section ban_query_extras.

Import banlist.




End ban_query_extras.
